(** * Data-quality scoring engine ([backend_logic/dq_engine.py])

    A shallow embedding of the seven metric functions, the explanation and
    recommendation resolvers and the [analyze_dataset] pipeline, followed by
    the properties established about them.

    Modelling conventions.
    - A pandas [DataFrame] is a row count together with an ordered list of
      named columns; a cell is null (NaN / None / NaT), a number, a string or
      an instant (nanoseconds since the epoch).
    - Python and numpy floats are modelled by exact rationals extended with
      NaN and the two infinities; [round(x, 2)] is rounding to the nearest
      hundredth, ties to even.  Binary rounding error is not modelled.
    - A raised Python exception is an [Raise e] result; a function that
      mutates the frame it receives returns the frame as it is afterwards.
    - Instants are unbounded integers: the range limits of the datetime64
      representation are not modelled.  The parser behind [pd.to_datetime]
      is a parameter of the development: it reads a value in the context of
      its whole column, and answers with an instant, with NaT, or not at
      all. *)

From Stdlib Require Import QArith Qround Lqa.
From stdpp Require Import gmap strings list fin_maps functions.

Local Open Scope Z_scope.

(** ** Exceptions and results *)

Inductive exn : Set :=
  | TypeError
  | NameError
  | KeyError
  | ValueError
  | ZeroDivisionError.

Inductive res (A : Type) : Type :=
  | Ok (a : A)
  | Raise (e : exn).
Arguments Ok {A} a.
Arguments Raise {A} e.

#[global] Instance res_ret : MRet res := @Ok.
#[global] Instance res_bind : MBind res := λ A B f m,
  match m with
  | Ok a => f a
  | Raise e => Raise e
  end.
#[global] Instance res_fmap : FMap res := λ A B f m,
  match m with
  | Ok a => Ok (f a)
  | Raise e => Raise e
  end.

Definition raises {A} (m : res A) : Prop := ∃ e, m = Raise e.
Definition returns {A} (m : res A) : Prop := ∃ a, m = Ok a.

(** ** Floats *)

Inductive pyfloat : Set :=
  | NaN
  | PInf
  | NInf
  | Fin (q : Q).

(** [round_half_even y]: the integer nearest to [y], ties to even. *)
Definition round_half_even (y : Q) : Z :=
  let f := Qfloor y in
  match Qcompare (y - inject_Z f) (1 # 2) with
  | Lt => f
  | Gt => f + 1
  | Eq => if Z.even f then f else f + 1
  end.

(** [round(x, 2)] *)
Definition round2 (x : pyfloat) : pyfloat :=
  match x with
  | Fin q => Fin (round_half_even (q * 100) # 100)
  | other => other
  end.

Definition fneg (x : pyfloat) : pyfloat :=
  match x with
  | NaN => NaN
  | PInf => NInf
  | NInf => PInf
  | Fin q => Fin (- q)
  end.

Definition fadd (x y : pyfloat) : pyfloat :=
  match x, y with
  | NaN, _ | _, NaN => NaN
  | PInf, NInf | NInf, PInf => NaN
  | PInf, _ | _, PInf => PInf
  | NInf, _ | _, NInf => NInf
  | Fin a, Fin b => Fin (a + b)
  end.

Definition fsub (x y : pyfloat) : pyfloat := fadd x (fneg y).

(** Multiplication by a positive finite constant, the only products the
    scoring code forms ([100 * _] and [_ * 100]). *)
Definition fscale (k : Q) (x : pyfloat) : pyfloat :=
  match x with
  | Fin q => Fin (k * q)
  | other => other
  end.

(** [x >= y]; every comparison with NaN is false. *)
Definition fge (x y : pyfloat) : bool :=
  match x, y with
  | NaN, _ | _, NaN => false
  | PInf, _ => true
  | _, NInf => true
  | _, PInf => false
  | NInf, _ => false
  | Fin a, Fin b => Qle_bool b a
  end.

(** Order on floats used to state comparisons of scores: [fle x y] holds
    when both are finite and [x <= y]. *)
Definition fle (x y : pyfloat) : Prop :=
  match x, y with
  | Fin a, Fin b => (a <= b)%Q
  | _, _ => False
  end.

(** numpy's scalar true division of two integers: division by zero does not
    raise, it yields NaN or an infinity. *)
Definition np_true_divide (a b : Z) : pyfloat :=
  if b =? 0 then
    (if a =? 0 then NaN else if 0 <? a then PInf else NInf)
  else Fin (inject_Z a / inject_Z b).

(** Python's [int / int]: division by zero raises. *)
Definition py_true_divide (a b : Z) : res pyfloat :=
  if b =? 0 then Raise ZeroDivisionError
  else Ok (Fin (inject_Z a / inject_Z b)).

(** ** Tables *)

Inductive cell : Set :=
  | Null
  | Num (q : Q)
  | Str (s : string)
  | Instant (ns : Z).

Abbreviation Series := (list cell).

Record DataFrame : Set := mkDataFrame {
  nrows : nat;
  columns : list (string * Series)
}.

Definition is_null (c : cell) : bool :=
  match c with
  | Null => true
  | _ => false
  end.

(** Value equality of cells, as used by [isin] and [nunique]. *)
Definition cell_eqb (a b : cell) : bool :=
  match a, b with
  | Null, Null => true
  | Num p, Num q => Qeq_bool p q
  | Str s, Str t => bool_decide (s = t)
  | Instant m, Instant n => m =? n
  | _, _ => false
  end.

Definition cell_in (c : cell) (vs : list cell) : bool := existsb (cell_eqb c) vs.

Fixpoint lookup_col (name : string) (cols : list (string * Series)) : option Series :=
  match cols with
  | [] => None
  | (n, s) :: rest => if bool_decide (n = name) then Some s else lookup_col name rest
  end.

(** [df[name]] *)
Definition getitem (df : DataFrame) (name : string) : res Series :=
  match lookup_col name (columns df) with
  | Some s => Ok s
  | None => Raise KeyError
  end.

Fixpoint assign_col (name : string) (s : Series) (cols : list (string * Series))
  : list (string * Series) :=
  match cols with
  | [] => [(name, s)]
  | (n, old) :: rest =>
      if bool_decide (n = name) then (n, s) :: rest
      else (n, old) :: assign_col name s rest
  end.

(** [df[name] = s] *)
Definition setitem (df : DataFrame) (name : string) (s : Series) : DataFrame :=
  {| nrows := nrows df; columns := assign_col name s (columns df) |}.

(** [len(df)], [df.shape] *)
Definition len (df : DataFrame) : Z := Z.of_nat (nrows df).
Definition shape (df : DataFrame) : Z * Z :=
  (Z.of_nat (nrows df), Z.of_nat (length (columns df))).

Definition count_true (bs : list bool) : Z :=
  Z.of_nat (length (filter (λ b, b = true) bs)).

(** [mask.mean()] of a boolean Series: NaN on the empty Series. *)
Definition mean (bs : list bool) : pyfloat :=
  match bs with
  | [] => NaN
  | _ => Fin (inject_Z (count_true bs) / inject_Z (Z.of_nat (length bs)))
  end.

(** [df.isnull().sum().sum()] *)
Definition isnull_sum_sum (df : DataFrame) : Z :=
  foldr (λ col acc, count_true (is_null <$> col.2) + acc) 0 (columns df).

(** [s.isin(values)] *)
Definition isin (s : Series) (values : list cell) : list bool :=
  (λ c, cell_in c values) <$> s.

Fixpoint distinct (cs : list cell) : list cell :=
  match cs with
  | [] => []
  | c :: rest => if cell_in c rest then distinct rest else c :: distinct rest
  end.

(** [s.nunique()]: the number of distinct non-null values. *)
Definition nunique (s : Series) : Z :=
  Z.of_nat (length (distinct (filter (λ c, is_null c = false) s))).

(** [a | b], [a & b] and [~a] on boolean Series of one length. *)
Definition mask_or (a b : list bool) : list bool := zip_with orb a b.
Definition mask_and (a b : list bool) : list bool := zip_with andb a b.
Definition mask_not (a : list bool) : list bool := negb <$> a.

(** Values passed positionally besides the frame. *)
Inductive pyval : Set :=
  | VStr (s : string)
  | VNum (q : Q)
  | VFrame (df : DataFrame).

(** ** Metric functions *)

Definition completeness_score (df : DataFrame) : res pyfloat :=
  let total_cells := (shape df).1 * (shape df).2 in
  let missing_cells := isnull_sum_sum df in
  let score := fscale 100 (fsub (Fin 1) (np_true_divide missing_cells total_cells)) in
  Ok (round2 score).

(** [def uniqueness_score(df)] declares one parameter, and its body reads the
    name [id_column], which is neither a parameter nor a local: it is looked
    up among the module's globals, where the source binds no such name.
    [module_id_column] is that global binding ([None]: unbound) and
    [extra_args] are the positional arguments a call passes after [df]. *)
Definition uniqueness_score (module_id_column : option string)
    (df : DataFrame) (extra_args : list pyval) : res pyfloat :=
  match extra_args with
  | _ :: _ => Raise TypeError
  | [] =>
      match module_id_column with
      | None => Raise NameError
      | Some id_column =>
          col ← getitem df id_column;
          unique_ratio ← py_true_divide (nunique col) (len df);
          Ok (round2 (fscale 100 unique_ratio))
      end
  end.

Definition VALID_CURRENCIES : list cell := [Str "INR"; Str "USD"; Str "EUR"].

Definition validity_score_currency (df : DataFrame) : res pyfloat :=
  col ← getitem df "currency_code";
  let invalid := mask_not (isin col VALID_CURRENCIES) in
  let score := fscale 100 (fsub (Fin 1) (mean invalid)) in
  Ok (round2 score).

(** [x <= 0] on one value: false on a null, a type error on a string or an
    instant. *)
Definition le_zero (c : cell) : res bool :=
  match c with
  | Null => Ok false
  | Num q => Ok (Qle_bool q 0)
  | Str _ | Instant _ => Raise TypeError
  end.

Definition accuracy_score_amount (df : DataFrame) : res pyfloat :=
  amount ← getitem df "transaction_amount";
  nonpositive ← mapM le_zero amount;
  amount' ← getitem df "transaction_amount";
  let invalid_amounts := mask_or nonpositive (is_null <$> amount') in
  let score := fscale 100 (fsub (Fin 1) (mean invalid_amounts)) in
  Ok (round2 score).

Definition consistency_score (df : DataFrame) : res pyfloat :=
  currency ← getitem df "currency_code";
  merchant ← getitem df "merchant_id";
  let inconsistent :=
    mask_and ((λ c, cell_eqb c (Str "INR")) <$> currency) (is_null <$> merchant) in
  let score := fscale 100 (fsub (Fin 1) (mean inconsistent)) in
  Ok (round2 score).

Definition integrity_score (txn_df cust_df merch_df : DataFrame) : res pyfloat :=
  txn_customer ← getitem txn_df "customer_id";
  customers ← getitem cust_df "customer_id";
  let invalid_customer := mask_not (isin txn_customer customers) in
  txn_merchant ← getitem txn_df "merchant_id";
  merchants ← getitem merch_df "merchant_id";
  let invalid_merchant := mask_not (isin txn_merchant merchants) in
  let invalid := mask_or invalid_customer invalid_merchant in
  let score := fscale 100 (fsub (Fin 1) (mean invalid)) in
  Ok (round2 score).

(** *** Timeliness *)

Definition ns_per_day : Z := 86400 * 1000000000.

(** [a - b] on two datetime values: NaT ([None]) when either is NaT. *)
Definition sub_instants (a b : cell) : option Z :=
  match a, b with
  | Instant x, Instant y => Some (x - y)
  | _, _ => None
  end.

(** [.dt.days]: the whole-day component of a duration, rounding towards
    minus infinity; NaN ([None]) on NaT. *)
Definition dt_days (d : option Z) : option Z := (λ ns, ns / ns_per_day) <$> d.

(** [delay > max_delay_days]; false on NaN. *)
Definition gt_days (max_delay_days : Z) (d : option Z) : bool :=
  match d with
  | Some n => max_delay_days <? n
  | None => false
  end.

(** The default of the parameter [max_delay_days], which the pipeline's call
    leaves to apply. *)
Definition max_delay_days_default : Z := 7.

(** The type of the parser [pd.to_datetime] applies to the strings and
    numbers of a column. *)
Abbreviation datetime_parser := (Series → cell → option (option Z)).

Section Timeliness.

(** The parser behind [pd.to_datetime], for the strings and numbers of a
    column.  It is given the column the value stands in, since pandas infers
    one format from the column and applies it to every value, so that a value
    that parses on its own may fail beside others.  Its answer is
    [Some (Some t)] for the instant [t], [Some None] for NaT (the empty
    string and the spellings of NaT and NaN convert to NaT without an error)
    and [None] when pandas cannot parse the value. *)
Variable parse_scalar : datetime_parser.

(** [pd.to_datetime] on one value of the column [column], with the default
    [errors="raise"]. *)
Definition to_datetime_cell (column : Series) (c : cell) : res cell :=
  match c with
  | Null => Ok Null
  | Instant t => Ok (Instant t)
  | other =>
      match parse_scalar column other with
      | Some (Some t) => Ok (Instant t)
      | Some None => Ok Null
      | None => Raise ValueError
      end
  end.

Definition to_datetime (s : Series) : res Series := mapM (to_datetime_cell s) s.

Definition late_mask (max_delay_days : Z) (settlement timestamp : Series) : list bool :=
  let delay := dt_days <$> zip_with sub_instants settlement timestamp in
  gt_days max_delay_days <$> delay.

(** The frame is mutated in place: the result pairs the outcome with the
    frame as the call leaves it. *)
Definition timeliness_score (df : DataFrame) (max_delay_days : Z)
  : res pyfloat * DataFrame :=
  match getitem df "transaction_timestamp" ≫= to_datetime with
  | Raise e => (Raise e, df)
  | Ok ts =>
      let df1 := setitem df "transaction_timestamp" ts in
      match getitem df1 "settlement_date" ≫= to_datetime with
      | Raise e => (Raise e, df1)
      | Ok sd =>
          let df2 := setitem df1 "settlement_date" sd in
          let r :=
            settlement ← getitem df2 "settlement_date";
            timestamp ← getitem df2 "transaction_timestamp";
            let late := late_mask max_delay_days settlement timestamp in
            let score := fscale 100 (fsub (Fin 1) (mean late)) in
            Ok (round2 score) in
          (r, df2)
      end
  end.

End Timeliness.

(** ** Explanation layer *)

(** [d[k]] on a dict. *)
Definition dict_get {V} (d : gmap string V) (k : string) : res V :=
  match d !! k with
  | Some v => Ok v
  | None => Raise KeyError
  end.

(** The severity band chosen at the head of [explain_dimension]. *)
Definition severity_of (score : pyfloat) : string :=
  if fge score (Fin 90) then "low"
  else if fge score (Fin 75) then "medium"
  else "high".

Definition explanation_table : list (string * list (string * string)) :=
  [ ("Completeness",
      [ ("low", "Most required fields are populated, indicating strong data capture processes.");
        ("medium", "Some critical fields contain missing values, which may affect downstream processing.");
        ("high", "A significant number of required fields are missing, impacting reconciliation and compliance.") ]);
    ("Accuracy",
      [ ("low", "Transaction values are largely accurate and within expected ranges.");
        ("medium", "Some transaction values appear unrealistic or invalid, affecting reporting reliability.");
        ("high", "Many transaction values are incorrect or invalid, posing financial and operational risks.") ]);
    ("Validity",
      [ ("low", "Most fields conform to expected formats and domain rules.");
        ("medium", "Several fields violate format or domain constraints, reducing system reliability.");
        ("high", "Widespread format and domain violations prevent reliable data processing.") ]);
    ("Uniqueness",
      [ ("low", "Records are mostly unique, minimizing duplication risks.");
        ("medium", "Some duplicate records were detected, which may lead to reconciliation errors.");
        ("high", "High duplication levels detected, risking double counting and reporting inaccuracies.") ]);
    ("Timeliness",
      [ ("low", "Transactions are settled within acceptable timeframes.");
        ("medium", "Settlement delays are observed, impacting real-time visibility.");
        ("high", "Significant delays detected, reducing operational effectiveness and fraud detection capability.") ]);
    ("Consistency",
      [ ("low", "Related fields show strong alignment across records.");
        ("medium", "Some inconsistencies exist between related fields, causing reporting mismatches.");
        ("high", "Frequent inconsistencies detected, reducing trust in analytical outputs.") ]);
    ("Integrity",
      [ ("low", "Relationships across datasets are well maintained.");
        ("medium", "Some records reference missing or invalid entities.");
        ("high", "Broken relationships detected, impacting end-to-end data reliability.") ]) ].

Definition explain_dimension (dimension : string) (score : pyfloat) : res string :=
  let severity := severity_of score in
  let explanations : gmap string (gmap string string) :=
    list_to_map (prod_map id list_to_map <$> explanation_table) in
  by_severity ← dict_get explanations dimension;
  dict_get by_severity severity.

Definition no_action : string := "No immediate action required. Continue monitoring.".

Definition recommendation_table : list (string * string) :=
  [ ("Completeness", "Enforce mandatory field validation at data ingestion.");
    ("Accuracy", "Apply value range checks and validation rules at the source.");
    ("Validity", "Standardize formats and apply domain-level validations.");
    ("Uniqueness", "Implement unique constraints and deduplication logic.");
    ("Timeliness", "Optimize settlement workflows and monitor delays.");
    ("Consistency", "Introduce cross-field validation rules.");
    ("Integrity", "Enforce referential integrity across related datasets.") ].

Definition generate_recommendation (dimension : string) (score : pyfloat) : res string :=
  if fge score (Fin 85) then Ok no_action
  else
    let recommendations : gmap string string := list_to_map recommendation_table in
    dict_get recommendations dimension.

(** The seven keys of both tables. *)
Definition dimensions : list string :=
  ["Completeness"; "Accuracy"; "Validity"; "Uniqueness"; "Timeliness";
   "Consistency"; "Integrity"].

(** ** Pipeline *)

(** The frames are objects shared with the caller: arguments are references
    into a heap, and two arguments may be the same reference. *)
Definition loc := nat.
Definition heap := loc → DataFrame.

Definition M (A : Type) : Type := heap → res A * heap.

#[global] Instance M_ret : MRet M := λ A a σ, (Ok a, σ).
#[global] Instance M_bind : MBind M := λ A B f m σ,
  match m σ with
  | (Ok a, σ') => f a σ'
  | (Raise e, σ') => (Raise e, σ')
  end.

(** A call that only reads the frame behind [l]. *)
Definition reading {A} (f : DataFrame → res A) (l : loc) : M A :=
  λ σ, (f (σ l), σ).

(** A call that may assign to the frame behind [l]. *)
Definition mutating {A} (f : DataFrame → res A * DataFrame) (l : loc) : M A :=
  λ σ, let '(r, df') := f (σ l) in (r, <[l := df']> σ).

Definition lift {A} (r : res A) : M A := λ σ, (r, σ).

Record report : Set := mkReport {
  overall_dqs : pyfloat;
  scores : list (string * pyfloat);
  explanations : list (string * string);
  recommendations : list (string * string)
}.

(** [sum(scores.values())], starting from 0. *)
Definition sum_values (scores : list (string * pyfloat)) : pyfloat :=
  foldl (λ acc kv, fadd acc kv.2) (Fin 0) scores.

(** [x / n] for a float [x] and a count [n]. *)
Definition fdiv_count (x : pyfloat) (n : nat) : pyfloat :=
  match x, n with
  | Fin q, O => if Qeq_bool q 0 then NaN else if Qle_bool 0 q then PInf else NInf
  | Fin q, _ => Fin (q / inject_Z (Z.of_nat n))
  | other, _ => other
  end.

Section Pipeline.

Variable parse_scalar : datetime_parser.
Variable module_id_column : option string.

Definition analyze_dataset (txn_df cust_df merch_df : loc) : M report :=
  completeness ← reading completeness_score txn_df;
  accuracy ← reading accuracy_score_amount txn_df;
  validity ← reading validity_score_currency txn_df;
  uniqueness ← reading (λ df, uniqueness_score module_id_column df [VStr "transaction_id"]) txn_df;
  timeliness ← mutating (λ df, timeliness_score parse_scalar df max_delay_days_default) txn_df;
  consistency ← reading consistency_score txn_df;
  integrity ← (λ σ, (integrity_score (σ txn_df) (σ cust_df) (σ merch_df), σ)) : M pyfloat;
  let scores :=
    [ ("Completeness", completeness); ("Accuracy", accuracy);
      ("Validity", validity); ("Uniqueness", uniqueness);
      ("Timeliness", timeliness); ("Consistency", consistency);
      ("Integrity", integrity) ] in
  explanations ← lift (mapM (λ kv, e ← explain_dimension kv.1 kv.2; Ok (kv.1, e)) scores);
  recommendations ← lift (mapM (λ kv, r ← generate_recommendation kv.1 kv.2; Ok (kv.1, r)) scores);
  let overall_dqs := round2 (fdiv_count (sum_values scores) (length scores)) in
  mret {| overall_dqs := overall_dqs; scores := scores;
          explanations := explanations; recommendations := recommendations |}.

End Pipeline.

(** ** A parser instance for the examples

    It serves columns of strings [YYYY-MM-DD] of the proleptic Gregorian
    calendar, the one format the examples use: such a string is read as its
    midnight, the empty string and the spellings of NaT and NaN as NaT, and
    every other string is rejected. *)

Definition digit (a : Ascii.ascii) : option Z :=
  let n := Z.of_nat (Ascii.nat_of_ascii a) in
  if (48 <=? n) && (n <=? 57) then Some (n - 48) else None.

Definition is_leap (y : Z) : bool :=
  ((y mod 4 =? 0) && negb (y mod 100 =? 0)) || (y mod 400 =? 0).

Definition days_in_month (y m : Z) : Z :=
  if m =? 2 then (if is_leap y then 29 else 28)
  else if (m =? 4) || (m =? 6) || (m =? 9) || (m =? 11) then 30
  else 31.

(** Days from 1970-01-01 to the civil date [y]-[m]-[d]. *)
Definition days_from_civil (y m d : Z) : Z :=
  let y' := if m <=? 2 then y - 1 else y in
  let era := y' / 400 in
  let yoe := y' - era * 400 in
  let mp := if 2 <? m then m - 3 else m + 9 in
  let doy := (153 * mp + 2) / 5 + d - 1 in
  let doe := yoe * 365 + yoe / 4 - yoe / 100 + doy in
  era * 146097 + doe - 719468.

Definition dash : Ascii.ascii := Ascii.ascii_of_nat 45.

Definition iso_date (s : string) : option Z :=
  match String.list_ascii_of_string s with
  | [y1; y2; y3; y4; sep1; m1; m2; sep2; d1; d2] =>
      if bool_decide (sep1 = dash) && bool_decide (sep2 = dash) then
        a ← digit y1; b ← digit y2; c ← digit y3; e ← digit y4;
        f ← digit m1; g ← digit m2; h ← digit d1; i ← digit d2;
        let y := 1000 * a + 100 * b + 10 * c + e in
        let m := 10 * f + g in
        let d := 10 * h + i in
        if (1 <=? m) && (m <=? 12) && (1 <=? d) && (d <=? days_in_month y m)
        then Some (days_from_civil y m d * ns_per_day)
        else None
      else None
  | _ => None
  end.

(** The strings [pd.to_datetime] converts to NaT. *)
Definition nat_strings : list string :=
  [""; "NaT"; "nat"; "NAT"; "nan"; "NaN"; "NAN"].

Definition iso_scalar (column : Series) (c : cell) : option (option Z) :=
  match c with
  | Str s => if bool_decide (s ∈ nat_strings) then Some None else Some <$> iso_date s
  | _ => None
  end.

(** ** Shapes and example tables *)

(** Every column of a frame has one value per row. *)
Definition rectangular (df : DataFrame) : Prop :=
  Forall (λ col, length col.2 = nrows df) (columns df).

Definition transaction_columns : list string :=
  ["transaction_id"; "customer_id"; "merchant_id"; "currency_code";
   "transaction_amount"; "transaction_timestamp"; "settlement_date"].

(** The transaction table with its seven columns and no row. *)
Definition empty_transactions : DataFrame :=
  {| nrows := 0; columns := (λ name, (name, [])) <$> transaction_columns |}.

(** A value [pd.to_datetime] cannot convert in the column it stands in: a
    string or a number the parser rejects there.  A value that converts to
    NaT is not one of them. *)
Definition unparseable (parse_scalar : datetime_parser) (column : Series) (c : cell)
  : Prop :=
  match c with
  | Null | Instant _ => False
  | other => parse_scalar column other = None
  end.


(** [df'] differs from [df] at most in the contents of the two timestamp
    columns: as many rows, the same column names in the same order, and every
    other column as it was. *)
Definition same_outside_timestamps (df df' : DataFrame) : Prop :=
  nrows df' = nrows df ∧
  (columns df').*1 = (columns df).*1 ∧
  ∀ name, name ≠ "transaction_timestamp" → name ≠ "settlement_date" →
    lookup_col name (columns df') = lookup_col name (columns df).

(** One transaction, given by its currency code, timestamp and settlement
    date. *)
Definition one_transaction (currency timestamp settlement : cell) : DataFrame :=
  {| nrows := 1;
     columns :=
       [ ("transaction_id", [Num 1]); ("customer_id", [Str "C1"]);
         ("merchant_id", [Str "M1"]); ("currency_code", [currency]);
         ("transaction_amount", [Num 100]);
         ("transaction_timestamp", [timestamp]);
         ("settlement_date", [settlement]) ] |}.

Definition scenario_transactions : DataFrame :=
  one_transaction (Str "INR") (Str "2024-01-01") (Str "2024-01-03").
Definition gbp_transactions : DataFrame :=
  one_transaction (Str "GBP") (Str "2024-01-01") (Str "2024-01-03").
Definition backdated_transactions : DataFrame :=
  one_transaction (Str "INR") (Str "2024-01-03") (Str "2024-01-01").

(** ** Score ranges *)

(** A finite score between 0 and 100. *)
Definition in_range (s : pyfloat) : Prop := fle (Fin 0) s ∧ fle s (Fin 100).

(** The score 100.0 and the score 0.0, as [round2] produces them. *)
Definition full_score : pyfloat := Fin (10000 # 100).
Definition zero_score : pyfloat := Fin (0 # 100).

(** The amounts Accuracy flags: a null, or a number that is not positive. *)
Definition invalid_amount (c : cell) : bool :=
  match c with
  | Null => true
  | Num q => Qle_bool q 0
  | Str _ | Instant _ => false
  end.

(** A value [<= 0] cannot be compared with: a string or an instant. *)
Definition not_comparable (c : cell) : Prop :=
  match c with
  | Str _ | Instant _ => True
  | Null | Num _ => False
  end.

(** A table with the amount column alone. *)
Definition amounts_only (col : Series) : DataFrame :=
  {| nrows := length col; columns := [("transaction_amount", col)] |}.

(** Reference tables with one column of identifiers. *)
Definition customers_table (ids : Series) : DataFrame :=
  {| nrows := length ids; columns := [("customer_id", ids)] |}.
Definition merchants_table (ids : Series) : DataFrame :=
  {| nrows := length ids; columns := [("merchant_id", ids)] |}.

(** A table with one identifier column. *)
Definition ids_only (col : Series) : DataFrame :=
  {| nrows := length col; columns := [("transaction_id", col)] |}.

(** A heap with the scenario's transaction table at reference 0 and, at
    every other reference, a one-column reference table. *)
Definition example_heap : heap := λ l,
  match l with
  | O => scenario_transactions
  | _ => {| nrows := 1; columns := [("customer_id", [Str "C1"])] |}
  end.

(** * Properties *)

(** ** The example parser *)

Example iso_date_2024_01_01 : iso_date "2024-01-01" = Some (19723 * ns_per_day).
Proof. reflexivity. Qed.

Example iso_date_rejects : iso_date "not a date" = None.
Proof. reflexivity. Qed.

(** ** The scenario of one clean transaction *)

Example scenario_metrics :
  completeness_score scenario_transactions = Ok (Fin (10000 # 100)) ∧
  accuracy_score_amount scenario_transactions = Ok (Fin (10000 # 100)) ∧
  validity_score_currency scenario_transactions = Ok (Fin (10000 # 100)) ∧
  (timeliness_score iso_scalar scenario_transactions max_delay_days_default).1
    = Ok (Fin (10000 # 100)) ∧
  consistency_score scenario_transactions = Ok (Fin (10000 # 100)) ∧
  integrity_score scenario_transactions (example_heap 1%nat)
    {| nrows := 1; columns := [("merchant_id", [Str "M1"])] |}
    = Ok (Fin (10000 # 100)).
Proof. repeat split. Qed.

(** With a global [id_column] bound and no surplus argument the body of
    [uniqueness_score] computes the ratio; the call the pipeline makes does
    not reach it. *)
Example scenario_uniqueness :
  uniqueness_score (Some "transaction_id") scenario_transactions []
    = Ok (Fin (10000 # 100)) ∧
  uniqueness_score (Some "transaction_id") scenario_transactions
    [VStr "transaction_id"] = Raise TypeError.
Proof. split; reflexivity. Qed.

Example scenario_pipeline :
  analyze_dataset iso_scalar None 0%nat 1%nat 1%nat example_heap
    = (Raise TypeError, example_heap).
Proof. reflexivity. Qed.

(** ** Comparisons and dictionary lookups *)

Lemma fge_Fin (q k : Q) : fge (Fin q) (Fin k) = true ↔ (k <= q)%Q.
Proof. simpl. apply Qle_bool_iff. Qed.

Lemma fge_Fin_false (q k : Q) : fge (Fin q) (Fin k) = false ↔ (q < k)%Q.
Proof.
  rewrite <- not_true_iff_false, fge_Fin. split.
  - apply Qnot_le_lt.
  - apply Qlt_not_le.
Qed.

Lemma severity_of_cases (score : pyfloat) :
  severity_of score = "low" ∨ severity_of score = "medium" ∨ severity_of score = "high".
Proof.
  unfold severity_of.
  destruct (fge score (Fin 90)); [by left|].
  destruct (fge score (Fin 75)); [right; by left | right; by right].
Qed.

Lemma dict_get_missing {V} (l : list (string * V)) (k : string) :
  k ∉ l.*1 → dict_get (list_to_map l) k = Raise KeyError.
Proof.
  intros Hk. unfold dict_get.
  by rewrite (not_elem_of_list_to_map_1 (M := gmap string) l k Hk).
Qed.

(** Pick the entry of a literal table whose key matches. *)
Ltac find_entry :=
  apply list_elem_of_In; simpl;
  repeat (first [left; reflexivity | right]).

Ltac each_dimension H :=
  unfold dimensions in H;
  repeat (apply elem_of_cons in H as [-> | H]);
  [ .. | by apply elem_of_nil in H ].

(** ** Severity, explanations and recommendations *)

(** C7. The severity band that selects the explanation is low for a score
    of at least 90, medium for a score of at least 75 and below 90, and high
    for a score below 75; [explain_dimension] returns, for each of the seven
    dimensions, the sentence its table holds for that band. *)
Theorem severity_bands (q : Q) :
  ((90 <= q)%Q → severity_of (Fin q) = "low") ∧
  ((75 <= q)%Q ∧ (q < 90)%Q → severity_of (Fin q) = "medium") ∧
  ((q < 75)%Q → severity_of (Fin q) = "high") ∧
  (∀ d, d ∈ dimensions →
     ∃ by_severity text,
       (d, by_severity) ∈ explanation_table ∧
       (severity_of (Fin q), text) ∈ by_severity ∧
       explain_dimension d (Fin q) = Ok text).
Proof.
  repeat split.
  - intros H. unfold severity_of. by rewrite (proj2 (fge_Fin q 90) H).
  - intros [H75 H90]. unfold severity_of.
    rewrite (proj2 (fge_Fin_false q 90) H90).
    by rewrite (proj2 (fge_Fin q 75) H75).
  - intros H. unfold severity_of.
    assert (q < 90)%Q as H90 by (eapply Qlt_trans; [exact H | reflexivity]).
    rewrite (proj2 (fge_Fin_false q 90) H90).
    by rewrite (proj2 (fge_Fin_false q 75) H).
  - intros d Hd. unfold explain_dimension.
    each_dimension Hd;
      destruct (severity_of_cases (Fin q)) as [-> | [-> | ->]];
      do 2 eexists; (split; [find_entry | split; [find_entry | vm_compute; reflexivity]]).
Qed.

Lemma severity_bands_witness :
  severity_of (Fin 95) = "low" ∧ severity_of (Fin 87) = "medium" ∧
  severity_of (Fin 0) = "high".
Proof.
  split; [| split].
  - apply (severity_bands 95). discriminate.
  - apply (severity_bands 87). split; [discriminate | reflexivity].
  - apply (severity_bands 0). reflexivity.
Defined.

(** C6.  At a score of at least 85 the resolver returns the sentence
    "No immediate action required. Continue monitoring.", whatever the
    dimension.  For each of the seven dimensions there is one remediation
    sentence, the one the table holds for it, and the resolver returns it at
    every score below 85 (and at NaN). *)
Theorem generate_recommendation_spec :
  (∀ d q, (85 <= q)%Q →
     generate_recommendation d (Fin q)
       = Ok "No immediate action required. Continue monitoring.") ∧
  (∀ d, d ∈ dimensions →
     ∃ sentence, (d, sentence) ∈ recommendation_table ∧
       (∀ q, (q < 85)%Q → generate_recommendation d (Fin q) = Ok sentence) ∧
       generate_recommendation d NaN = Ok sentence).
Proof.
  split.
  - intros d q H. unfold generate_recommendation.
    by rewrite (proj2 (fge_Fin q 85) H).
  - intros d Hd.
    each_dimension Hd;
      (eexists; split; [find_entry | split;
        [ intros q Hq; unfold generate_recommendation;
          rewrite (proj2 (fge_Fin_false q 85) Hq); vm_compute; reflexivity
        | vm_compute; reflexivity ]]).
Qed.

Lemma generate_recommendation_spec_witness :
  generate_recommendation "Validity" (Fin 85) = Ok no_action ∧
  ∃ sentence, ("Validity", sentence) ∈ recommendation_table ∧
    generate_recommendation "Validity" (Fin (8499 # 100)) = Ok sentence.
Proof.
  destruct generate_recommendation_spec as [Hhigh Hlow].
  split.
  - apply Hhigh. discriminate.
  - destruct (Hlow "Validity") as (sentence & Hin & Hbelow & _).
    + unfold dimensions. do 2 apply list_elem_of_further. apply list_elem_of_here.
    + exists sentence. split; [exact Hin |]. apply Hbelow. reflexivity.
Defined.

(** C8, as the code has it.  For a name outside the seven dimensions,
    [explain_dimension] raises [KeyError] at every score, and
    [generate_recommendation] raises [KeyError] at every score below 85 and
    at NaN; at a score of at least 85 it returns the no-action sentence
    without looking the name up. *)
Theorem unknown_dimension_lookup (d : string) :
  d ∉ dimensions →
  (∀ score, explain_dimension d score = Raise KeyError) ∧
  (∀ q, (q < 85)%Q → generate_recommendation d (Fin q) = Raise KeyError) ∧
  generate_recommendation d NaN = Raise KeyError ∧
  (∀ q, (85 <= q)%Q →
     generate_recommendation d (Fin q)
       = Ok "No immediate action required. Continue monitoring.").
Proof.
  intros Hd. split; [| split; [| split]].
  - intros score. unfold explain_dimension.
    rewrite dict_get_missing; [done |].
    by rewrite <- list_fmap_compose.
  - intros q Hq. unfold generate_recommendation.
    rewrite (proj2 (fge_Fin_false q 85) Hq).
    by apply dict_get_missing.
  - unfold generate_recommendation. simpl fge. cbv iota.
    by apply dict_get_missing.
  - intros q Hq. unfold generate_recommendation.
    by rewrite (proj2 (fge_Fin q 85) Hq).
Qed.

Lemma freshness_not_a_dimension : "Freshness" ∉ dimensions.
Proof.
  unfold dimensions. intros H.
  repeat (apply elem_of_cons in H as [H | H]; [discriminate H |]).
  by apply elem_of_nil in H.
Qed.

Lemma unknown_dimension_lookup_witness :
  explain_dimension "Freshness" (Fin 50) = Raise KeyError ∧
  generate_recommendation "Freshness" (Fin 50) = Raise KeyError ∧
  generate_recommendation "Freshness" (Fin 90) = Ok no_action.
Proof.
  destruct (unknown_dimension_lookup "Freshness" freshness_not_a_dimension)
    as (Hexplain & Hlow & _ & Hhigh).
  split; [| split].
  - apply Hexplain.
  - apply Hlow. reflexivity.
  - apply Hhigh. discriminate.
Defined.

(** C8, as stated, fails: at score 90 the recommendation resolver returns
    the no-action sentence for a name that is not a dimension. *)
Lemma unknown_dimension_recommendation_returns :
  ("Freshness" ∉ dimensions) ∧
  generate_recommendation "Freshness" (Fin 90) = Ok no_action ∧
  ¬ raises (generate_recommendation "Freshness" (Fin 90)).
Proof.
  split; [| split].
  - apply freshness_not_a_dimension.
  - reflexivity.
  - intros [e He]. discriminate He.
Qed.

(** ** Uniqueness and the pipeline *)

(** C1.  The pipeline calls [uniqueness_score(txn_df, "transaction_id")], two
    positional arguments for a function declared with one: the call raises
    [TypeError] on every table and returns no ratio.  Called with the one
    argument it declares, in the module as written, the function raises
    [NameError] at the unbound name [id_column]. *)
Theorem uniqueness_score_pipeline_call_raises (module_id_column : option string)
    (df : DataFrame) :
  uniqueness_score module_id_column df [VStr "transaction_id"] = Raise TypeError ∧
  uniqueness_score None df [] = Raise NameError.
Proof. split; reflexivity. Qed.

Lemma M_bind_raise {A B} (m : M A) (k : A → M B) (σ σ' : heap) (e : exn) :
  m σ = (Raise e, σ') → (m ≫= k) σ = (Raise e, σ').
Proof. intros H. unfold mbind, M_bind. by rewrite H. Qed.

Lemma M_bind_ok {A B} (m : M A) (k : A → M B) (σ σ' : heap) (a : A) :
  m σ = (Ok a, σ') → (m ≫= k) σ = k a σ'.
Proof. intros H. unfold mbind, M_bind. by rewrite H. Qed.

Lemma reading_run {A} (f : DataFrame → res A) (l : loc) (σ : heap) :
  reading f l σ = (f (σ l), σ).
Proof. reflexivity. Qed.

(** Every run of the pipeline ends in an exception, with the heap as it
    was: the three metrics before Uniqueness only read, and the call of
    Uniqueness raises. *)
Lemma analyze_dataset_raises (parse_scalar : datetime_parser)
    (module_id_column : option string) (txn_df cust_df merch_df : loc) (σ : heap) :
  ∃ e, analyze_dataset parse_scalar module_id_column txn_df cust_df merch_df σ
       = (Raise e, σ).
Proof.
  unfold analyze_dataset.
  destruct (completeness_score (σ txn_df)) as [c | e] eqn:Hc;
    [erewrite M_bind_ok by (rewrite reading_run, Hc; reflexivity)
    | eexists; apply M_bind_raise; rewrite reading_run, Hc; reflexivity].
  destruct (accuracy_score_amount (σ txn_df)) as [a | e] eqn:Ha;
    [erewrite M_bind_ok by (rewrite reading_run, Ha; reflexivity)
    | eexists; apply M_bind_raise; rewrite reading_run, Ha; reflexivity].
  destruct (validity_score_currency (σ txn_df)) as [v | e] eqn:Hv;
    [erewrite M_bind_ok by (rewrite reading_run, Hv; reflexivity)
    | eexists; apply M_bind_raise; rewrite reading_run, Hv; reflexivity].
  eexists. apply M_bind_raise. reflexivity.
Qed.

(** C5.  [analyze_dataset] returns no report on any triple of tables: the
    run ends in an exception before the line that computes [overall_dqs] is
    reached. *)
Theorem analyze_dataset_returns_no_report (parse_scalar : datetime_parser)
    (module_id_column : option string) (txn_df cust_df merch_df : loc) (σ : heap) :
  raises (analyze_dataset parse_scalar module_id_column txn_df cust_df merch_df σ).1 ∧
  ¬ returns (analyze_dataset parse_scalar module_id_column txn_df cust_df merch_df σ).1.
Proof.
  destruct (analyze_dataset_raises parse_scalar module_id_column
              txn_df cust_df merch_df σ) as [e He].
  rewrite He. split.
  - by exists e.
  - intros [r Hr]. discriminate Hr.
Qed.

(** ** Empty tables *)

Lemma count_true_nil_of_length (bs : list bool) : length bs = 0%nat → count_true bs = 0.
Proof. by destruct bs. Qed.

Lemma isnull_sum_sum_no_rows (df : DataFrame) :
  rectangular df → nrows df = 0%nat → isnull_sum_sum df = 0.
Proof.
  unfold rectangular, isnull_sum_sum. intros Hrect Hn. rewrite Hn in Hrect.
  induction Hrect as [| col cols Hcol _ IH]; [done |].
  simpl. rewrite IH, count_true_nil_of_length; [done |].
  by rewrite length_fmap.
Qed.

(** C2, as the code has it.  On a table without rows Completeness raises
    nothing and returns NaN; Uniqueness returns no score, neither NaN nor
    zero: every call of it on such a table raises. *)
Theorem empty_table_scores (df : DataFrame) :
  rectangular df → nrows df = 0%nat →
  completeness_score df = Ok NaN ∧
  ∀ module_id_column extra_args,
    raises (uniqueness_score module_id_column df extra_args).
Proof.
  intros Hrect Hn. split.
  - unfold completeness_score, shape. simpl.
    by rewrite (isnull_sum_sum_no_rows df Hrect Hn), Hn.
  - intros g extra. unfold uniqueness_score.
    destruct extra as [| ? ?]; [| by eexists].
    destruct g as [id_column |]; [| by eexists].
    destruct (getitem df id_column) as [col | e]; [| by eexists].
    simpl. unfold py_true_divide, len. rewrite Hn. by eexists.
Qed.

Lemma empty_table_scores_witness :
  completeness_score empty_transactions = Ok NaN ∧
  ∀ module_id_column extra_args,
    raises (uniqueness_score module_id_column empty_transactions extra_args).
Proof.
  apply (empty_table_scores empty_transactions).
  - unfold rectangular. simpl. repeat constructor.
  - reflexivity.
Defined.

(** C2, as stated, fails: on the empty transaction table Completeness
    returns NaN and raises nothing. *)
Lemma completeness_empty_returns_nan :
  nrows empty_transactions = 0%nat ∧
  completeness_score empty_transactions = Ok NaN ∧
  ¬ raises (completeness_score empty_transactions).
Proof.
  split; [reflexivity | split; [reflexivity |]].
  intros [e He]. discriminate He.
Qed.

(** ** Rounding is monotone *)

Lemma round_half_even_bounds (y : Q) :
  Qfloor y <= round_half_even y <= Qfloor y + 1.
Proof.
  unfold round_half_even.
  destruct (Qcompare _ _); [destruct (Z.even _) | |]; lia.
Qed.

Lemma round_half_even_mono (x y : Q) :
  (x <= y)%Q → round_half_even x <= round_half_even y.
Proof.
  intros Hxy.
  pose proof (Qfloor_resp_le x y Hxy) as Hf.
  pose proof (round_half_even_bounds x) as Hx.
  pose proof (round_half_even_bounds y) as Hy.
  destruct (decide (Qfloor x = Qfloor y)) as [Heq | Hne]; [| lia].
  unfold round_half_even in *. rewrite <- Heq in *.
  assert (x - inject_Z (Qfloor x) <= y - inject_Z (Qfloor x))%Q as Hfrac.
  { apply Qplus_le_l. exact Hxy. }
  destruct (Qcompare (x - inject_Z (Qfloor x)) (1 # 2)) eqn:Hcx.
  - apply Qeq_alt in Hcx.
    destruct (Qcompare (y - inject_Z (Qfloor x)) (1 # 2)) eqn:Hcy.
    + lia.
    + apply Qlt_alt in Hcy. exfalso.
      apply (Qlt_irrefl (1 # 2)). rewrite <- Hcx at 1.
      eapply Qle_lt_trans; eassumption.
    + destruct (Z.even _); lia.
  - destruct (Qcompare (y - inject_Z (Qfloor x)) (1 # 2));
      [destruct (Z.even _) | |]; lia.
  - apply Qgt_alt in Hcx.
    assert (1 # 2 < y - inject_Z (Qfloor x))%Q as Hgt.
    { eapply Qlt_le_trans; eassumption. }
    apply Qgt_alt in Hgt. rewrite Hgt. lia.
Qed.

Lemma round2_mono (a b : Q) : (a <= b)%Q → fle (round2 (Fin a)) (round2 (Fin b)).
Proof.
  intros Hab. simpl. unfold Qle. simpl.
  apply Z.mul_le_mono_nonneg_r; [lia |].
  apply round_half_even_mono.
  apply Qmult_le_compat_r; [exact Hab | discriminate].
Qed.

(** ** Counting and the mean *)

Lemma count_true_cons (b : bool) (bs : list bool) :
  count_true (b :: bs) = (if b then 1 else 0) + count_true bs.
Proof.
  unfold count_true. destruct b.
  - rewrite filter_cons_True by done. simpl length. lia.
  - rewrite filter_cons_False by done. lia.
Qed.

Lemma count_true_insert_false (bs : list bool) (i : nat) :
  count_true (<[i := false]> bs) <= count_true bs.
Proof.
  revert i. induction bs as [| b bs IH]; intros i; [done |].
  destruct i as [| i]; simpl.
  - rewrite !count_true_cons. destruct b; lia.
  - rewrite !count_true_cons. specialize (IH i). lia.
Qed.

Lemma mean_nonempty (bs : list bool) :
  bs ≠ [] →
  mean bs = Fin (inject_Z (count_true bs) / inject_Z (Z.of_nat (length bs))).
Proof. by destruct bs. Qed.

(** Fewer flagged rows among as many rows give a score at least as high. *)
Lemma score_mono_in_count (k k' n : Z) :
  0 < n → k' <= k →
  fle (round2 (fscale 100 (fsub (Fin 1) (Fin (inject_Z k / inject_Z n)))))
      (round2 (fscale 100 (fsub (Fin 1) (Fin (inject_Z k' / inject_Z n))))).
Proof.
  intros Hn Hk. simpl fscale. apply round2_mono.
  apply Qmult_le_l; [reflexivity |].
  apply Qplus_le_r. apply Qopp_le_compat.
  apply Qmult_le_compat_r.
  - rewrite <- Zle_Qle. exact Hk.
  - apply Qinv_le_0_compat. change 0%Q with (inject_Z 0).
    rewrite <- Zle_Qle. lia.
Qed.

(** ** Column assignment *)

Lemma lookup_col_assign_eq (name : string) (s : Series) (cols : list (string * Series)) :
  lookup_col name (assign_col name s cols) = Some s.
Proof.
  induction cols as [| [n old] cols IH]; simpl.
  - by rewrite bool_decide_eq_true_2.
  - destruct (bool_decide (n = name)) eqn:Hn; simpl; by rewrite Hn.
Qed.

Lemma lookup_col_assign_ne (name other : string) (s : Series)
    (cols : list (string * Series)) :
  name ≠ other →
  lookup_col other (assign_col name s cols) = lookup_col other cols.
Proof.
  intros Hne. induction cols as [| [n old] cols IH]; simpl.
  - by rewrite bool_decide_eq_false_2.
  - destruct (bool_decide (n = name)) eqn:Hn; simpl.
    + apply bool_decide_eq_true_1 in Hn. subst n.
      by rewrite bool_decide_eq_false_2.
    + by rewrite IH.
Qed.

Lemma assign_col_names (name : string) (s old : Series) (cols : list (string * Series)) :
  lookup_col name cols = Some old → (assign_col name s cols).*1 = cols.*1.
Proof.
  induction cols as [| [n o] cols IH]; simpl; [done |].
  destruct (bool_decide (n = name)) eqn:Hn; [done |].
  intros H. rewrite !fmap_cons. f_equal. by apply IH.
Qed.

Lemma getitem_setitem_eq (df : DataFrame) (name : string) (s : Series) :
  getitem (setitem df name s) name = Ok s.
Proof. unfold getitem, setitem. simpl. by rewrite lookup_col_assign_eq. Qed.

Lemma getitem_setitem_ne (df : DataFrame) (name other : string) (s : Series) :
  name ≠ other → getitem (setitem df name s) other = getitem df other.
Proof.
  intros Hne. unfold getitem, setitem. simpl.
  by rewrite lookup_col_assign_ne.
Qed.

(** ** Validity *)

(** C9.  Replacing, in one row, a currency code outside the allowed set by
    one of INR, USD and EUR, with every other row and the row count as they
    were, gives a Validity score at least as high. *)
Theorem validity_monotone (df : DataFrame) (col : Series) (i : nat) (old new : cell) :
  getitem df "currency_code" = Ok col →
  col !! i = Some old →
  cell_in old VALID_CURRENCIES = false →
  new ∈ VALID_CURRENCIES →
  let df' := setitem df "currency_code" (<[i := new]> col) in
  nrows df' = nrows df ∧
  ∃ s s', validity_score_currency df = Ok s ∧
          validity_score_currency df' = Ok s' ∧
          fle s s'.
Proof.
  intros Hcol Hi Hold Hnew df'. split; [done |].
  unfold validity_score_currency, df'.
  rewrite Hcol, getitem_setitem_eq. cbn [mbind res_bind].
  do 2 eexists. split; [reflexivity | split; [reflexivity |]].
  assert (cell_in new VALID_CURRENCIES = true) as Hin.
  { unfold VALID_CURRENCIES in Hnew.
    repeat (apply elem_of_cons in Hnew as [-> | Hnew]; [reflexivity |]).
    by apply elem_of_nil in Hnew. }
  unfold isin, mask_not.
  rewrite !list_fmap_insert, Hin. simpl negb.
  set (mask := negb <$> ((λ c, cell_in c VALID_CURRENCIES) <$> col)).
  assert (mask ≠ []) as Hne.
  { subst mask. destruct col; [done | discriminate]. }
  assert (<[i := false]> mask ≠ []) as Hne'.
  { intros H. apply Hne. apply (f_equal length) in H.
    rewrite length_insert in H. by destruct mask. }
  rewrite (mean_nonempty _ Hne), (mean_nonempty _ Hne'), length_insert.
  apply score_mono_in_count.
  - destruct mask; [done | simpl; lia].
  - apply count_true_insert_false.
Qed.

Lemma validity_monotone_witness :
  nrows (setitem gbp_transactions "currency_code" (<[0%nat := Str "INR"]> [Str "GBP"]))
    = nrows gbp_transactions ∧
  ∃ s s', validity_score_currency gbp_transactions = Ok s ∧
          validity_score_currency
            (setitem gbp_transactions "currency_code" (<[0%nat := Str "INR"]> [Str "GBP"]))
            = Ok s' ∧
          fle s s'.
Proof.
  apply (validity_monotone gbp_transactions [Str "GBP"] 0 (Str "GBP") (Str "INR")).
  - reflexivity.
  - reflexivity.
  - reflexivity.
  - apply list_elem_of_here.
Defined.

Example validity_gbp_then_inr :
  validity_score_currency gbp_transactions = Ok (Fin (0 # 100)) ∧
  validity_score_currency scenario_transactions = Ok (Fin (10000 # 100)).
Proof. split; reflexivity. Qed.

(** ** Element-wise conversion *)

Section MapM.
Context {A B : Type} (f : A → res B).

Lemma mapM_res_cons (x : A) (l : list A) :
  mapM f (x :: l) = y ← f x; k ← mapM f l; Ok (y :: k).
Proof. reflexivity. Qed.


Lemma mapM_res_raise (l : list A) (x : A) (e0 : exn) :
  (∀ y e, f y = Raise e → e = e0) →
  x ∈ l → f x = Raise e0 → mapM f l = Raise e0.
Proof.
  intros Hall Hx Hfx. induction l as [| a l IH]; [by apply elem_of_nil in Hx |].
  rewrite mapM_res_cons.
  destruct (f a) as [y | e] eqn:Hfa.
  - apply elem_of_cons in Hx as [-> | Hx]; [congruence |].
    by rewrite (IH Hx).
  - by rewrite (Hall a e Hfa).
Qed.

End MapM.

Section TimelinessFacts.
Variable parse_scalar : datetime_parser.

Lemma to_datetime_cell_raise (column : Series) (c : cell) (e : exn) :
  to_datetime_cell parse_scalar column c = Raise e → e = ValueError.
Proof.
  destruct c; simpl; try discriminate;
    destruct (parse_scalar _ _) as [[t |] |]; congruence.
Qed.

Lemma to_datetime_cell_unparseable (column : Series) (c : cell) :
  unparseable parse_scalar column c →
  to_datetime_cell parse_scalar column c = Raise ValueError.
Proof. destruct c; simpl; try done; by intros ->. Qed.




Lemma to_datetime_unparseable (s : Series) (c : cell) :
  c ∈ s → unparseable parse_scalar s c → to_datetime parse_scalar s = Raise ValueError.
Proof.
  intros Hc Hu. apply (mapM_res_raise _ s c).
  - apply to_datetime_cell_raise.
  - exact Hc.
  - by apply to_datetime_cell_unparseable.
Qed.

(** A run in which both columns are present and convert. *)
Lemma timeliness_score_run (df : DataFrame) (d : Z) (raw_ts raw_sd ts sd : Series) :
  getitem df "transaction_timestamp" = Ok raw_ts →
  getitem df "settlement_date" = Ok raw_sd →
  to_datetime parse_scalar raw_ts = Ok ts →
  to_datetime parse_scalar raw_sd = Ok sd →
  timeliness_score parse_scalar df d
  = (Ok (round2 (fscale 100 (fsub (Fin 1) (mean (late_mask d sd ts))))),
     setitem (setitem df "transaction_timestamp" ts) "settlement_date" sd).
Proof.
  intros Hts Hsd Hpts Hpsd. unfold timeliness_score.
  rewrite Hts. cbn [mbind res_bind]. rewrite Hpts.
  rewrite getitem_setitem_ne, Hsd by done. cbn [mbind res_bind]. rewrite Hpsd.
  rewrite getitem_setitem_eq. cbn [mbind res_bind].
  rewrite getitem_setitem_ne, getitem_setitem_eq by done.
  reflexivity.
Qed.

Lemma late_mask_lookup (d : Z) (sd ts : Series) (i : nat) (a b : cell) :
  sd !! i = Some a → ts !! i = Some b →
  late_mask d sd ts !! i = Some (gt_days d (dt_days (sub_instants a b))).
Proof.
  intros Ha Hb. unfold late_mask.
  rewrite !list_lookup_fmap, lookup_zip_with, Ha. simpl. by rewrite Hb.
Qed.

Lemma getitem_lookup_col (df : DataFrame) (name : string) (s : Series) :
  getitem df name = Ok s → lookup_col name (columns df) = Some s.
Proof. unfold getitem. destruct (lookup_col _ _); congruence. Qed.

Lemma same_outside_timestamps_refl (df : DataFrame) : same_outside_timestamps df df.
Proof. by repeat split. Qed.

Lemma setitem_timestamp_frame (df df' : DataFrame) (name : string) (old s : Series) :
  name = "transaction_timestamp" ∨ name = "settlement_date" →
  same_outside_timestamps df df' →
  getitem df' name = Ok old →
  same_outside_timestamps df (setitem df' name s).
Proof.
  intros Hname (Hn & Hnames & Hcols) Hold. split; [| split].
  - by simpl.
  - simpl. rewrite <- Hnames.
    by apply (assign_col_names name s old), getitem_lookup_col.
  - intros other H1 H2. simpl. rewrite lookup_col_assign_ne.
    + by apply Hcols.
    + destruct Hname as [-> | ->]; congruence.
Qed.

Lemma timeliness_score_frame (df : DataFrame) (d : Z) :
  same_outside_timestamps df (timeliness_score parse_scalar df d).2.
Proof.
  unfold timeliness_score.
  destruct (getitem df "transaction_timestamp") as [raw_ts |] eqn:Hts;
    cbn [mbind res_bind]; [| apply same_outside_timestamps_refl].
  destruct (to_datetime parse_scalar raw_ts) as [ts |];
    [| apply same_outside_timestamps_refl].
  assert (same_outside_timestamps df (setitem df "transaction_timestamp" ts)) as H1.
  { eapply setitem_timestamp_frame;
      [by left | apply same_outside_timestamps_refl | exact Hts]. }
  destruct (getitem (setitem df "transaction_timestamp" ts) "settlement_date")
    as [raw_sd |] eqn:Hsd; cbn [mbind res_bind]; [| exact H1].
  destruct (to_datetime parse_scalar raw_sd) as [sd |]; [| exact H1].
  simpl. eapply setitem_timestamp_frame; [by right | exact H1 | exact Hsd].
Qed.
End TimelinessFacts.

(** ** Timeliness *)

Lemma whole_days_late (delta : Z) :
  (max_delay_days_default <? delta / ns_per_day) = bool_decide (8 * ns_per_day <= delta).
Proof.
  unfold max_delay_days_default.
  change ns_per_day with 86400000000000.
  case_bool_decide as H; [apply Z.ltb_lt | apply Z.ltb_ge].
  - assert (8 <= delta / 86400000000000); [| lia].
    apply Z.div_le_lower_bound; lia.
  - assert (delta / 86400000000000 < 8); [| lia].
    apply Z.div_lt_upper_bound; lia.
Qed.

(** C10.  With both columns converted, the score is computed from the mask
    that flags a row as late exactly when its settlement instant is at least
    8 full days after its transaction instant: a row whose difference is
    below 8 days, a row settled before its transaction among them, is in the
    mask as on time. *)
Theorem timeliness_whole_days (parse_scalar : datetime_parser) (df : DataFrame)
    (raw_ts raw_sd ts sd : Series) :
  getitem df "transaction_timestamp" = Ok raw_ts →
  getitem df "settlement_date" = Ok raw_sd →
  to_datetime parse_scalar raw_ts = Ok ts →
  to_datetime parse_scalar raw_sd = Ok sd →
  (timeliness_score parse_scalar df max_delay_days_default).1
    = Ok (round2 (fscale 100 (fsub (Fin 1)
            (mean (late_mask max_delay_days_default sd ts))))) ∧
  ∀ i t s, ts !! i = Some (Instant t) → sd !! i = Some (Instant s) →
    (s - t < 8 * ns_per_day →
       late_mask max_delay_days_default sd ts !! i = Some false) ∧
    (s < t → late_mask max_delay_days_default sd ts !! i = Some false) ∧
    (8 * ns_per_day <= s - t →
       late_mask max_delay_days_default sd ts !! i = Some true).
Proof.
  intros Hts Hsd Hpts Hpsd. split.
  - by rewrite (timeliness_score_run parse_scalar df _ raw_ts raw_sd ts sd).
  - intros i t s Ht Hs.
    rewrite (late_mask_lookup _ sd ts i _ _ Hs Ht). simpl.
    rewrite whole_days_late.
    split; [| split]; intros H; f_equal.
    + apply bool_decide_eq_false_2. lia.
    + apply bool_decide_eq_false_2. unfold ns_per_day. lia.
    + by apply bool_decide_eq_true_2.
Qed.

Lemma timeliness_whole_days_witness :
  (timeliness_score iso_scalar backdated_transactions max_delay_days_default).1
    = Ok (Fin (10000 # 100)) ∧
  late_mask max_delay_days_default
    [Instant (19723 * ns_per_day)] [Instant (19725 * ns_per_day)] !! 0%nat = Some false.
Proof.
  pose proof (timeliness_whole_days iso_scalar backdated_transactions
                [Str "2024-01-03"] [Str "2024-01-01"]
                [Instant (19725 * ns_per_day)] [Instant (19723 * ns_per_day)]
                eq_refl eq_refl eq_refl eq_refl) as [Hscore Hrows].
  split.
  - exact Hscore.
  - apply (Hrows 0%nat (19725 * ns_per_day) (19723 * ns_per_day) eq_refl eq_refl).
    reflexivity.
Defined.




(** ** Frame conditions *)

(** C4, as the code has it.  Timeliness assigns to the frame it receives:
    it may replace the contents of the columns transaction_timestamp and
    settlement_date, and changes neither the row count, nor the column names,
    nor any other column.  A run of the pipeline changes no frame other than
    the transaction table, and that one at most in those two columns. *)
Theorem inputs_frame (parse_scalar : datetime_parser) (module_id_column : option string) :
  (∀ df d, same_outside_timestamps df (timeliness_score parse_scalar df d).2) ∧
  (∀ txn_df cust_df merch_df σ,
     let σ' := (analyze_dataset parse_scalar module_id_column
                  txn_df cust_df merch_df σ).2 in
     (∀ l, l ≠ txn_df → σ' l = σ l) ∧
     same_outside_timestamps (σ txn_df) (σ' txn_df)).
Proof.
  split.
  - apply timeliness_score_frame.
  - intros txn_df cust_df merch_df σ σ'. subst σ'.
    destruct (analyze_dataset_raises parse_scalar module_id_column
                txn_df cust_df merch_df σ) as [e ->].
    split; [done | apply same_outside_timestamps_refl].
Qed.

(** C4, as stated, fails: Timeliness replaces the strings of the two
    timestamp columns of the table it receives by instants. *)
Lemma timeliness_mutates_its_input :
  (timeliness_score iso_scalar scenario_transactions max_delay_days_default).2
    ≠ scenario_transactions ∧
  getitem scenario_transactions "transaction_timestamp" = Ok [Str "2024-01-01"] ∧
  getitem (timeliness_score iso_scalar scenario_transactions max_delay_days_default).2
    "transaction_timestamp" = Ok [Instant (19723 * ns_per_day)].
Proof. split; [discriminate | split; reflexivity]. Qed.

Lemma inputs_frame_witness :
  (analyze_dataset iso_scalar None 0%nat 1%nat 1%nat example_heap).2 1%nat
    = example_heap 1%nat ∧
  same_outside_timestamps scenario_transactions
    (timeliness_score iso_scalar scenario_transactions max_delay_days_default).2.
Proof.
  destruct (inputs_frame iso_scalar None) as [Hmetric Hrun].
  split.
  - apply (Hrun 0%nat 1%nat 1%nat example_heap). discriminate.
  - apply Hmetric.
Defined.

(** * Further properties of the metric functions *)

(** ** The score of a mask *)

Lemma round_half_even_comp (x y : Q) : (x == y)%Q → round_half_even x = round_half_even y.
Proof.
  intros H. unfold round_half_even. rewrite (Qfloor_comp x y H).
  assert (x - inject_Z (Qfloor y) == y - inject_Z (Qfloor y))%Q as Hfrac.
  { apply Qplus_comp; [exact H | reflexivity]. }
  by rewrite (Qcompare_comp _ _ Hfrac (1 # 2) (1 # 2) (Qeq_refl _)).
Qed.

Lemma round_half_even_Z (z : Z) : round_half_even (inject_Z z) = z.
Proof.
  unfold round_half_even. rewrite Qfloor_Z.
  assert (inject_Z z - inject_Z z < 1 # 2)%Q as H by lra.
  by rewrite (proj1 (Qlt_alt _ _) H).
Qed.

Lemma round2_in_range (a : Q) : (0 <= a)%Q → (a <= 100)%Q → in_range (round2 (Fin a)).
Proof.
  intros H0 H100.
  assert (0 <= round_half_even (a * 100) <= 10000) as [Hlo Hhi].
  { split.
    - change 0 with (round_half_even 0). apply round_half_even_mono. lra.
    - rewrite <- (round_half_even_Z 10000). apply round_half_even_mono.
      change (inject_Z 10000) with 10000%Q. lra. }
  split; simpl; unfold Qle; simpl; lia.
Qed.

Lemma count_true_bounds (bs : list bool) : 0 <= count_true bs <= Z.of_nat (length bs).
Proof.
  induction bs as [| b bs IH]; [done |].
  rewrite count_true_cons. simpl length. destruct b; lia.
Qed.

Lemma count_true_all (bs : list bool) :
  Forall (λ b, b = true) bs → count_true bs = Z.of_nat (length bs).
Proof.
  induction 1 as [| b bs -> _ IH]; [done |].
  rewrite count_true_cons, IH. simpl length. lia.
Qed.

Lemma count_true_none (bs : list bool) :
  Forall (λ b, b = false) bs → count_true bs = 0.
Proof.
  induction 1 as [| b bs -> _ IH]; [done |].
  by rewrite count_true_cons, IH.
Qed.

Lemma mask_score_empty :
  round2 (fscale 100 (fsub (Fin 1) (mean []))) = NaN.
Proof. reflexivity. Qed.

Lemma ratio_bounds (k n : Z) :
  0 < n → 0 <= k <= n →
  (0 <= inject_Z k / inject_Z n)%Q ∧ (inject_Z k / inject_Z n <= 1)%Q.
Proof.
  intros Hn [Hk0 Hkn].
  assert (0 < inject_Z n)%Q as Hn' by (change 0%Q with (inject_Z 0); by rewrite <- Zlt_Qlt).
  split.
  - apply Qle_shift_div_l; [exact Hn' |].
    rewrite Qmult_0_l. change 0%Q with (inject_Z 0). by rewrite <- Zle_Qle.
  - apply Qle_shift_div_r; [exact Hn' |].
    rewrite Qmult_1_l. by rewrite <- Zle_Qle.
Qed.

Lemma mask_score_in_range (m : list bool) :
  m ≠ [] → in_range (round2 (fscale 100 (fsub (Fin 1) (mean m)))).
Proof.
  intros Hm. rewrite (mean_nonempty m Hm). simpl fscale.
  pose proof (count_true_bounds m) as Hk.
  destruct (ratio_bounds (count_true m) (Z.of_nat (length m))) as [H0 H1];
    [destruct m; [done | simpl; lia] | exact Hk |].
  apply round2_in_range; lra.
Qed.

Lemma mask_score_cases (m : list bool) :
  let s := round2 (fscale 100 (fsub (Fin 1) (mean m))) in
  (m = [] ∧ s = NaN) ∨ (m ≠ [] ∧ in_range s).
Proof.
  destruct m as [| b m]; [by left | right].
  split; [done | by apply mask_score_in_range].
Qed.

Lemma mask_score_full (m : list bool) :
  m ≠ [] → Forall (λ b, b = false) m →
  round2 (fscale 100 (fsub (Fin 1) (mean m))) = full_score.
Proof.
  intros Hm Hall. rewrite (mean_nonempty m Hm), (count_true_none m Hall).
  simpl. unfold full_score. f_equal. f_equal.
  rewrite <- (round_half_even_Z 10000). apply round_half_even_comp.
  change (inject_Z 10000) with 10000%Q. change (inject_Z 0) with 0%Q.
  unfold Qdiv. lra.
Qed.

Lemma mask_score_zero (m : list bool) :
  m ≠ [] → Forall (λ b, b = true) m →
  round2 (fscale 100 (fsub (Fin 1) (mean m))) = zero_score.
Proof.
  intros Hm Hall. rewrite (mean_nonempty m Hm), (count_true_all m Hall).
  simpl. unfold zero_score. f_equal. f_equal.
  rewrite <- (round_half_even_Z 0). apply round_half_even_comp.
  change (inject_Z 0) with 0%Q.
  assert (inject_Z (Z.of_nat (length m)) / inject_Z (Z.of_nat (length m)) == 1)%Q as ->.
  { apply Qmult_inv_r. intros H.
    assert (Z.of_nat (length m) = 0) as H0.
    { apply inject_Z_injective. exact H. }
    destruct m; [done | simpl in H0; lia]. }
  lra.
Qed.

(** ** Columns *)

Lemma lookup_col_absent (name : string) (cols : list (string * Series)) :
  name ∉ cols.*1 → lookup_col name cols = None.
Proof.
  induction cols as [| [n c] cols IH]; [done |].
  rewrite fmap_cons, not_elem_of_cons. intros [Hne Hrest]. simpl.
  rewrite bool_decide_eq_false_2 by done. by apply IH.
Qed.

Lemma getitem_absent (df : DataFrame) (name : string) :
  name ∉ (columns df).*1 → getitem df name = Raise KeyError.
Proof. intros H. unfold getitem. by rewrite lookup_col_absent. Qed.

Lemma getitem_raise (df : DataFrame) (name : string) (e : exn) :
  getitem df name = Raise e → e = KeyError.
Proof. unfold getitem. destruct (lookup_col _ _); congruence. Qed.

Lemma lookup_col_elem (name : string) (cols : list (string * Series)) (c : Series) :
  lookup_col name cols = Some c → (name, c) ∈ cols.
Proof.
  induction cols as [| [n o] cols IH]; [done |]. simpl.
  case_bool_decide as Hn.
  - intros [= ->]. subst n. apply list_elem_of_here.
  - intros H. apply list_elem_of_further. by apply IH.
Qed.

Lemma lookup_col_present (name : string) (cols : list (string * Series)) :
  name ∈ cols.*1 → is_Some (lookup_col name cols).
Proof.
  induction cols as [| [n o] cols IH]; [by intros H%elem_of_nil |].
  rewrite fmap_cons, elem_of_cons. simpl. intros [-> | H].
  - by rewrite bool_decide_eq_true_2.
  - case_bool_decide; [done | by apply IH].
Qed.

Lemma getitem_no_rows (df : DataFrame) (name : string) :
  rectangular df → nrows df = 0%nat → name ∈ (columns df).*1 →
  getitem df name = Ok [].
Proof.
  intros Hrect Hn Hname. unfold getitem.
  destruct (lookup_col_present name _ Hname) as [c Hc]. rewrite Hc.
  apply lookup_col_elem in Hc.
  unfold rectangular in Hrect. rewrite list.Forall_forall in Hrect.
  specialize (Hrect _ Hc). simpl in Hrect. rewrite Hn in Hrect.
  by destruct c.
Qed.

Lemma getitem_length (df : DataFrame) (name : string) (c : Series) :
  rectangular df → getitem df name = Ok c → length c = nrows df.
Proof.
  intros Hrect H. apply getitem_lookup_col, lookup_col_elem in H.
  unfold rectangular in Hrect. rewrite list.Forall_forall in Hrect.
  by apply (Hrect _ H).
Qed.

(** ** Masks *)

Lemma mapM_res_fmap {A B} (g : A → res B) (f : A → B) (l : list A) :
  Forall (λ x, g x = Ok (f x)) l → mapM g l = Ok (f <$> l).
Proof.
  induction 1 as [| x l Hx _ IH]; [done |].
  by rewrite mapM_res_cons, Hx, IH.
Qed.

Lemma mapM_res_length {A B} (g : A → res B) (l : list A) (k : list B) :
  mapM g l = Ok k → length k = length l.
Proof.
  revert k. induction l as [| x l IH]; intros k.
  - by intros [= <-].
  - rewrite mapM_res_cons.
    destruct (g x); [| discriminate]. destruct (mapM g l); [| discriminate].
    intros [= <-]. simpl. f_equal. by apply IH.
Qed.

Lemma zip_with_fmap_same {A} (op : bool → bool → bool) (f g : A → bool) (l : list A) :
  zip_with op (f <$> l) (g <$> l) = (λ x, op (f x) (g x)) <$> l.
Proof.
  induction l as [| x l IH]; [done |].
  rewrite !fmap_cons. simpl. by f_equal.
Qed.

Lemma Forall_fmap_const {A} (f : A → bool) (b : bool) (l : list A) :
  Forall (λ x, f x = b) l → Forall (λ y, y = b) (f <$> l).
Proof. intros H. by apply Forall_fmap. Qed.

Lemma fmap_nonempty {A B} (f : A → B) (l : list A) : l ≠ [] → f <$> l ≠ [].
Proof. by destruct l. Qed.

Lemma cell_in_valid_currency (c : cell) :
  cell_in c VALID_CURRENCIES = true ↔ c ∈ VALID_CURRENCIES.
Proof.
  unfold VALID_CURRENCIES. split.
  - destruct c as [| q | s | t]; simpl; try discriminate.
    repeat case_bool_decide; simpl; try discriminate; subst; intros _;
      set_solver.
  - intros H.
    repeat (apply elem_of_cons in H as [-> | H]; [reflexivity |]).
    by apply elem_of_nil in H.
Qed.

(** ** Ranges, missing columns and empty tables *)

Lemma mask_score_nan_or_range (m : list bool) :
  round2 (fscale 100 (fsub (Fin 1) (mean m))) = NaN ∨
  in_range (round2 (fscale 100 (fsub (Fin 1) (mean m)))).
Proof. destruct (mask_score_cases m) as [[_ ->] | [_ ?]]; [by left | by right]. Qed.

(** X1.  Whatever Validity, Accuracy, Consistency or Integrity returns is
    NaN or a finite score between 0 and 100. *)
Theorem pure_metric_scores_in_range (df cust_df merch_df : DataFrame) (s : pyfloat) :
  validity_score_currency df = Ok s ∨ accuracy_score_amount df = Ok s ∨
  consistency_score df = Ok s ∨ integrity_score df cust_df merch_df = Ok s →
  s = NaN ∨ in_range s.
Proof.
  intros [H | [H | [H | H]]]; revert H.
  - unfold validity_score_currency.
    destruct (getitem df "currency_code"); [| discriminate].
    cbn [mbind res_bind]. cbv zeta. intros [= <-]. apply mask_score_nan_or_range.
  - unfold accuracy_score_amount.
    destruct (getitem df "transaction_amount"); [| discriminate].
    cbn [mbind res_bind].
    destruct (mapM le_zero a); [| discriminate].
    cbn [mbind res_bind]. cbv zeta. intros [= <-]. apply mask_score_nan_or_range.
  - unfold consistency_score.
    destruct (getitem df "currency_code"); [| discriminate].
    cbn [mbind res_bind].
    destruct (getitem df "merchant_id"); [| discriminate].
    cbn [mbind res_bind]. cbv zeta. intros [= <-]. apply mask_score_nan_or_range.
  - unfold integrity_score.
    destruct (getitem df "customer_id"); [| discriminate].
    cbn [mbind res_bind].
    destruct (getitem cust_df "customer_id"); [| discriminate].
    cbn [mbind res_bind].
    destruct (getitem df "merchant_id"); [| discriminate].
    cbn [mbind res_bind].
    destruct (getitem merch_df "merchant_id"); [| discriminate].
    cbn [mbind res_bind]. cbv zeta. intros [= <-]. apply mask_score_nan_or_range.
Qed.

Lemma pure_metric_scores_in_range_witness :
  Fin (0 # 100) = NaN ∨ in_range (Fin (0 # 100)).
Proof.
  apply (pure_metric_scores_in_range gbp_transactions gbp_transactions
           gbp_transactions (Fin (0 # 100))).
  left. reflexivity.
Defined.

(** X2.  A metric whose table lacks a column it reads raises [KeyError]:
    Validity without currency_code, Accuracy without transaction_amount,
    Consistency without currency_code or merchant_id, Integrity when
    customer_id or merchant_id is missing from the transaction table or from
    its reference table. *)
Theorem missing_column_raises_KeyError (df cust_df merch_df : DataFrame) :
  ("currency_code" ∉ (columns df).*1 →
     validity_score_currency df = Raise KeyError) ∧
  ("transaction_amount" ∉ (columns df).*1 →
     accuracy_score_amount df = Raise KeyError) ∧
  ("currency_code" ∉ (columns df).*1 ∨ "merchant_id" ∉ (columns df).*1 →
     consistency_score df = Raise KeyError) ∧
  ("customer_id" ∉ (columns df).*1 ∨ "customer_id" ∉ (columns cust_df).*1 ∨
   "merchant_id" ∉ (columns df).*1 ∨ "merchant_id" ∉ (columns merch_df).*1 →
     integrity_score df cust_df merch_df = Raise KeyError).
Proof.
  split; [| split; [| split]].
  - intros H. unfold validity_score_currency. by rewrite getitem_absent.
  - intros H. unfold accuracy_score_amount. by rewrite getitem_absent.
  - intros H. unfold consistency_score.
    destruct (getitem df "currency_code") as [c | e] eqn:Hc;
      [| by rewrite (getitem_raise _ _ _ Hc)].
    destruct H as [H | H]; [by rewrite getitem_absent in Hc |].
    cbn [mbind res_bind]. by rewrite getitem_absent.
  - intros H. unfold integrity_score.
    destruct (getitem df "customer_id") as [a | e] eqn:Ha;
      [| by rewrite (getitem_raise _ _ _ Ha)].
    destruct H as [H | H]; [by rewrite getitem_absent in Ha |].
    cbn [mbind res_bind].
    destruct (getitem cust_df "customer_id") as [b | e] eqn:Hb;
      [| by rewrite (getitem_raise _ _ _ Hb)].
    destruct H as [H | H]; [by rewrite getitem_absent in Hb |].
    cbn [mbind res_bind].
    destruct (getitem df "merchant_id") as [c | e] eqn:Hc;
      [| by rewrite (getitem_raise _ _ _ Hc)].
    destruct H as [H | H]; [by rewrite getitem_absent in Hc |].
    cbn [mbind res_bind]. by rewrite getitem_absent.
Qed.

Lemma missing_column_raises_KeyError_witness :
  integrity_score scenario_transactions (example_heap 1%nat) (example_heap 1%nat)
    = Raise KeyError.
Proof.
  apply (missing_column_raises_KeyError scenario_transactions
           (example_heap 1%nat) (example_heap 1%nat)).
  do 3 right. simpl. intros H.
  apply elem_of_cons in H as [H | H]; [discriminate H | by apply elem_of_nil in H].
Defined.

(** X3.  On a table without rows that has the columns a metric reads,
    Validity, Accuracy, Consistency, Integrity and Timeliness raise nothing
    and return NaN. *)
Theorem zero_rows_scores_nan (parse_scalar : datetime_parser)
    (df cust_df merch_df : DataFrame) (d : Z) :
  rectangular df → nrows df = 0%nat →
  ("currency_code" ∈ (columns df).*1 → validity_score_currency df = Ok NaN) ∧
  ("transaction_amount" ∈ (columns df).*1 → accuracy_score_amount df = Ok NaN) ∧
  ("currency_code" ∈ (columns df).*1 → "merchant_id" ∈ (columns df).*1 →
     consistency_score df = Ok NaN) ∧
  ("customer_id" ∈ (columns df).*1 → "merchant_id" ∈ (columns df).*1 →
   "customer_id" ∈ (columns cust_df).*1 → "merchant_id" ∈ (columns merch_df).*1 →
     integrity_score df cust_df merch_df = Ok NaN) ∧
  ("transaction_timestamp" ∈ (columns df).*1 → "settlement_date" ∈ (columns df).*1 →
     (timeliness_score parse_scalar df d).1 = Ok NaN).
Proof.
  intros Hrect Hn. repeat split.
  - intros H. unfold validity_score_currency.
    by rewrite (getitem_no_rows df _ Hrect Hn H).
  - intros H. unfold accuracy_score_amount.
    by rewrite (getitem_no_rows df _ Hrect Hn H).
  - intros H1 H2. unfold consistency_score.
    by rewrite (getitem_no_rows df _ Hrect Hn H1), (getitem_no_rows df _ Hrect Hn H2).
  - intros H1 H2 H3 H4. unfold integrity_score.
    rewrite (getitem_no_rows df _ Hrect Hn H1), (getitem_no_rows df _ Hrect Hn H2).
    unfold getitem.
    destruct (lookup_col_present _ _ H3) as [c ->].
    by destruct (lookup_col_present _ _ H4) as [m ->].
  - intros H1 H2.
    by rewrite (timeliness_score_run parse_scalar df d [] [] [] []
                  (getitem_no_rows df _ Hrect Hn H1)
                  (getitem_no_rows df _ Hrect Hn H2) eq_refl eq_refl).
Qed.

Lemma zero_rows_scores_nan_witness :
  validity_score_currency empty_transactions = Ok NaN ∧
  (timeliness_score iso_scalar empty_transactions max_delay_days_default).1 = Ok NaN.
Proof.
  assert (rectangular empty_transactions) as Hrect.
  { unfold rectangular. simpl. repeat constructor. }
  destruct (zero_rows_scores_nan iso_scalar empty_transactions
              empty_transactions empty_transactions max_delay_days_default
              Hrect eq_refl) as (Hv & _ & _ & _ & Ht).
  split.
  - apply Hv. simpl. set_solver.
  - apply Ht; simpl; set_solver.
Defined.

(** ** Validity, Accuracy and Consistency at their extremes *)

(** X4.  On a table with at least one row, Validity is 100.0 when every
    currency code is one of INR, USD and EUR, and 0.0 when none is (a null
    code is not one of them). *)
Theorem validity_all_or_nothing (df : DataFrame) (col : Series) :
  getitem df "currency_code" = Ok col → col ≠ [] →
  (Forall (λ c, c ∈ VALID_CURRENCIES) col →
     validity_score_currency df = Ok full_score) ∧
  (Forall (λ c, c ∉ VALID_CURRENCIES) col →
     validity_score_currency df = Ok zero_score).
Proof.
  intros Hcol Hne. unfold validity_score_currency, isin, mask_not.
  rewrite Hcol. cbn [mbind res_bind]. cbv zeta. split; intros Hall; f_equal.
  - apply mask_score_full; [by do 2 apply fmap_nonempty |].
    apply Forall_fmap, Forall_fmap. eapply list.Forall_impl; [exact Hall |].
    intros c Hc. unfold compose. by rewrite (proj2 (cell_in_valid_currency c) Hc).
  - apply mask_score_zero; [by do 2 apply fmap_nonempty |].
    apply Forall_fmap, Forall_fmap. eapply list.Forall_impl; [exact Hall |].
    intros c Hc. unfold compose.
    destruct (cell_in c VALID_CURRENCIES) eqn:Hin; [| done].
    by apply cell_in_valid_currency in Hin.
Qed.

Lemma validity_all_or_nothing_witness :
  validity_score_currency scenario_transactions = Ok full_score ∧
  validity_score_currency (one_transaction Null (Str "2024-01-01") Null)
    = Ok zero_score.
Proof.
  split.
  - apply (validity_all_or_nothing scenario_transactions [Str "INR"] eq_refl);
      [discriminate |].
    repeat constructor.
  - apply (validity_all_or_nothing (one_transaction Null (Str "2024-01-01") Null)
             [Null] eq_refl); [discriminate |].
    repeat constructor. intros H.
    repeat (apply elem_of_cons in H as [H | H]; [discriminate H |]).
    by apply elem_of_nil in H.
Defined.

Lemma le_zero_raise (c : cell) (e : exn) : le_zero c = Raise e → e = TypeError.
Proof. destruct c; simpl; congruence. Qed.

Lemma le_zero_not_comparable (c : cell) : not_comparable c → le_zero c = Raise TypeError.
Proof. by destruct c. Qed.

(** On a column of numbers and nulls, Accuracy scores the mask of the
    amounts that are null or not positive. *)
Lemma accuracy_on_numbers (df : DataFrame) (col : Series) :
  getitem df "transaction_amount" = Ok col →
  Forall (λ c, ¬ not_comparable c) col →
  accuracy_score_amount df
  = Ok (round2 (fscale 100 (fsub (Fin 1) (mean (invalid_amount <$> col))))).
Proof.
  intros Hcol Hall. unfold accuracy_score_amount, mask_or.
  rewrite Hcol. cbn [mbind res_bind].
  rewrite (mapM_res_fmap le_zero
             (λ c, match c with Num q => Qle_bool q 0 | _ => false end) col).
  - cbn [mbind res_bind]. cbv zeta. rewrite zip_with_fmap_same.
    do 5 f_equal. apply list_fmap_ext. intros i c _.
    destruct c; simpl; by rewrite ?orb_false_r.
  - eapply list.Forall_impl; [exact Hall |]. intros c Hc. by destruct c.
Qed.

(** X5.  Accuracy raises [TypeError] as soon as the amount column holds a
    string or an instant, whatever the other rows hold. *)
Theorem accuracy_type_error (df : DataFrame) (col : Series) (c : cell) :
  getitem df "transaction_amount" = Ok col →
  c ∈ col → not_comparable c →
  accuracy_score_amount df = Raise TypeError.
Proof.
  intros Hcol Hc Hbad. unfold accuracy_score_amount.
  rewrite Hcol. cbn [mbind res_bind].
  rewrite (mapM_res_raise le_zero col c TypeError);
    [done | apply le_zero_raise | exact Hc | by apply le_zero_not_comparable].
Qed.

Lemma accuracy_type_error_witness :
  accuracy_score_amount (amounts_only [Num 100; Str "n/a"]) = Raise TypeError.
Proof.
  apply (accuracy_type_error (amounts_only [Num 100; Str "n/a"])
           [Num 100; Str "n/a"] (Str "n/a") eq_refl).
  - apply list_elem_of_further, list_elem_of_here.
  - exact I.
Defined.

(** X6.  On a table with at least one row, Accuracy is 0.0 when every
    amount is null, 0.0 when every amount is a number that is not positive,
    and 100.0 when every amount is a positive number. *)
Theorem accuracy_extremes (df : DataFrame) (col : Series) :
  getitem df "transaction_amount" = Ok col → col ≠ [] →
  (Forall (λ c, c = Null) col → accuracy_score_amount df = Ok zero_score) ∧
  (Forall (λ c, ∃ q, c = Num q ∧ (q <= 0)%Q) col →
     accuracy_score_amount df = Ok zero_score) ∧
  (Forall (λ c, ∃ q, c = Num q ∧ (0 < q)%Q) col →
     accuracy_score_amount df = Ok full_score).
Proof.
  intros Hcol Hne. split; [| split]; intros Hall.
  - rewrite (accuracy_on_numbers df col Hcol);
      [| eapply list.Forall_impl; [exact Hall |]; intros c ->; simpl; tauto].
    f_equal. apply mask_score_zero; [by apply fmap_nonempty |].
    apply Forall_fmap. eapply list.Forall_impl; [exact Hall |]. by intros c ->.
  - rewrite (accuracy_on_numbers df col Hcol);
      [| eapply list.Forall_impl; [exact Hall |]; intros c (q & -> & _); simpl; tauto].
    f_equal. apply mask_score_zero; [by apply fmap_nonempty |].
    apply Forall_fmap. eapply list.Forall_impl; [exact Hall |].
    intros c (q & -> & Hq). simpl. by apply Qle_bool_iff.
  - rewrite (accuracy_on_numbers df col Hcol);
      [| eapply list.Forall_impl; [exact Hall |]; intros c (q & -> & _); simpl; tauto].
    f_equal. apply mask_score_full; [by apply fmap_nonempty |].
    apply Forall_fmap. eapply list.Forall_impl; [exact Hall |].
    intros c (q & -> & Hq). simpl.
    apply not_true_iff_false. rewrite Qle_bool_iff. by apply Qlt_not_le.
Qed.

Lemma accuracy_extremes_witness :
  accuracy_score_amount (amounts_only [Null; Null]) = Ok zero_score ∧
  accuracy_score_amount scenario_transactions = Ok full_score.
Proof.
  split.
  - destruct (accuracy_extremes (amounts_only [Null; Null]) [Null; Null] eq_refl)
      as (Hnull & _ & _); [discriminate |].
    apply Hnull. repeat constructor.
  - destruct (accuracy_extremes scenario_transactions [Num 100] eq_refl)
      as (_ & _ & Hpos); [discriminate |].
    apply Hpos. repeat constructor. exists 100%Q. split; reflexivity.
Defined.

(** ** Consistency *)

Lemma zip_with_andb_false_l (a b : list bool) :
  Forall (λ x, x = false) a → Forall (λ x, x = false) (zip_with andb a b).
Proof.
  intros Ha. revert b. induction Ha as [| x a -> _ IH]; intros b; [done |].
  destruct b as [| y b]; [done |]. simpl. constructor; [done | apply IH].
Qed.

Lemma zip_with_andb_false_r (a b : list bool) :
  Forall (λ x, x = false) b → Forall (λ x, x = false) (zip_with andb a b).
Proof.
  intros Hb. revert a. induction Hb as [| y b -> _ IH]; intros a.
  - by destruct a.
  - destruct a as [| x a]; [done |]. simpl.
    constructor; [apply andb_false_r | apply IH].
Qed.

Lemma zip_with_nonempty {A B C} (f : A → B → C) (a : list A) (b : list B) :
  a ≠ [] → length a = length b → zip_with f a b ≠ [].
Proof. destruct a, b; done. Qed.

(** X7.  On a table with at least one row, Consistency is 100.0 when no
    merchant_id is null, and also when no currency code is INR: the one
    contradiction it looks for needs both. *)
Theorem consistency_full_score (df : DataFrame) (currency merchant : Series) :
  getitem df "currency_code" = Ok currency →
  getitem df "merchant_id" = Ok merchant →
  length currency = length merchant → currency ≠ [] →
  Forall (λ c, c ≠ Null) merchant ∨ Forall (λ c, c ≠ Str "INR") currency →
  consistency_score df = Ok full_score.
Proof.
  intros Hcur Hmer Hlen Hne Hclean. unfold consistency_score, mask_and.
  rewrite Hcur. cbn [mbind res_bind]. rewrite Hmer. cbn [mbind res_bind]. cbv zeta.
  f_equal. apply mask_score_full.
  - apply zip_with_nonempty; [by apply fmap_nonempty | by rewrite !length_fmap].
  - destruct Hclean as [Hall | Hall].
    + apply zip_with_andb_false_r, Forall_fmap.
      eapply list.Forall_impl; [exact Hall |]. intros c Hc. by destruct c.
    + apply zip_with_andb_false_l, Forall_fmap.
      eapply list.Forall_impl; [exact Hall |]. intros c Hc. unfold compose.
      destruct c as [| q | s | t]; simpl; try done.
      case_bool_decide; [by subst | done].
Qed.

Lemma consistency_full_score_witness :
  consistency_score gbp_transactions = Ok full_score.
Proof.
  apply (consistency_full_score gbp_transactions [Str "GBP"] [Str "M1"]
           eq_refl eq_refl eq_refl); [discriminate |].
  left. repeat constructor. discriminate.
Defined.

(** ** Integrity *)

Lemma cell_in_mono (x : cell) (ref ref' : list cell) :
  ref ⊆ ref' → cell_in x ref = true → cell_in x ref' = true.
Proof.
  intros Hsub. unfold cell_in. rewrite !existsb_exists.
  intros (y & Hy & Hxy). exists y. split; [| exact Hxy].
  apply list_elem_of_In, Hsub, list_elem_of_In, Hy.
Qed.

(** The mask of Integrity, as [integrity_score] builds it. *)
Lemma integrity_mask_mono (tc tm c c' m m' : list cell) :
  c ⊆ c' → m ⊆ m' →
  count_true (mask_or (mask_not (isin tc c')) (mask_not (isin tm m')))
  <= count_true (mask_or (mask_not (isin tc c)) (mask_not (isin tm m))) ∧
  length (mask_or (mask_not (isin tc c')) (mask_not (isin tm m')))
  = length (mask_or (mask_not (isin tc c)) (mask_not (isin tm m))).
Proof.
  intros Hc Hm. unfold mask_or, mask_not, isin.
  revert tm. induction tc as [| x tc IH]; intros tm; [done |].
  destruct tm as [| y tm]; [done |].
  rewrite !fmap_cons. simpl zip_with. rewrite !count_true_cons.
  destruct (IH tm) as [Hcount Hlen]. split; [| simpl; by rewrite Hlen].
  destruct (cell_in x c) eqn:Hx; [rewrite (cell_in_mono x c c' Hc Hx) |];
    (destruct (cell_in y m) eqn:Hy; [rewrite (cell_in_mono y m m' Hm Hy) |]);
    simpl; repeat (destruct (cell_in _ _); simpl); lia.
Qed.

(** X8.  Adding rows to the customer or merchant reference table never
    lowers Integrity: with the transaction table fixed, larger reference
    columns give a score at least as high (and NaN stays NaN). *)
Theorem integrity_monotone_in_reference
    (txn_df cust_df cust_df' merch_df merch_df' : DataFrame)
    (c c' m m' : Series) (s : pyfloat) :
  getitem cust_df "customer_id" = Ok c →
  getitem cust_df' "customer_id" = Ok c' →
  getitem merch_df "merchant_id" = Ok m →
  getitem merch_df' "merchant_id" = Ok m' →
  c ⊆ c' → m ⊆ m' →
  integrity_score txn_df cust_df merch_df = Ok s →
  ∃ s', integrity_score txn_df cust_df' merch_df' = Ok s' ∧
        ((s = NaN ∧ s' = NaN) ∨ fle s s').
Proof.
  intros Hc Hc' Hm Hm' Hsubc Hsubm. unfold integrity_score.
  destruct (getitem txn_df "customer_id") as [tc |]; [| discriminate].
  cbn [mbind res_bind]. rewrite Hc, Hc'. cbn [mbind res_bind].
  destruct (getitem txn_df "merchant_id") as [tm |]; [| discriminate].
  cbn [mbind res_bind]. rewrite Hm, Hm'. cbn [mbind res_bind]. cbv zeta.
  intros Hs. eexists. split; [reflexivity |].
  assert (s = round2 (fscale 100 (fsub (Fin 1)
            (mean (mask_or (mask_not (isin tc c)) (mask_not (isin tm m)))))))
    as -> by congruence. clear Hs.
  destruct (integrity_mask_mono tc tm c c' m m' Hsubc Hsubm) as [Hcount Hlen].
  set (old := mask_or (mask_not (isin tc c)) (mask_not (isin tm m))) in *.
  set (new := mask_or (mask_not (isin tc c')) (mask_not (isin tm m'))) in *.
  destruct (decide (old = [])) as [Hnil | Hne].
  - left. rewrite Hnil in Hlen |- *.
    destruct new; [done | discriminate Hlen].
  - right.
    assert (new ≠ []) as Hne'.
    { intros Hnil. rewrite Hnil in Hlen. destruct old; [done | discriminate Hlen]. }
    rewrite (mean_nonempty _ Hne), (mean_nonempty _ Hne'), Hlen.
    apply score_mono_in_count; [| exact Hcount].
    destruct old; [done | simpl; lia].
Qed.

Lemma integrity_monotone_in_reference_witness :
  ∃ s', integrity_score scenario_transactions
          (customers_table [Str "C1"]) (merchants_table [Str "M1"]) = Ok s' ∧
        ((zero_score = NaN ∧ s' = NaN) ∨ fle zero_score s').
Proof.
  apply (integrity_monotone_in_reference scenario_transactions
           (customers_table []) (customers_table [Str "C1"])
           (merchants_table [Str "M1"]) (merchants_table [Str "M1"])
           [] [Str "C1"] [Str "M1"] [Str "M1"] zero_score
           eq_refl eq_refl eq_refl eq_refl).
  - apply list_subseteq_nil.
  - done.
  - reflexivity.
Defined.

Lemma zip_with_orb_true_l (a b : list bool) :
  Forall (λ x, x = true) a → Forall (λ x, x = true) (zip_with orb a b).
Proof.
  intros Ha. revert b. induction Ha as [| x a -> _ IH]; intros b; [done |].
  destruct b as [| y b]; [done |]. simpl. constructor; [done | apply IH].
Qed.

Lemma zip_with_orb_true_r (a b : list bool) :
  Forall (λ x, x = true) b → Forall (λ x, x = true) (zip_with orb a b).
Proof.
  intros Hb. revert a. induction Hb as [| y b -> _ IH]; intros a.
  - by destruct a.
  - destruct a as [| x a]; [done |]. simpl.
    constructor; [apply orb_true_r | apply IH].
Qed.

Lemma zip_with_orb_false (a b : list bool) :
  Forall (λ x, x = false) a → Forall (λ x, x = false) b →
  Forall (λ x, x = false) (zip_with orb a b).
Proof.
  intros Ha. revert b. induction Ha as [| x a -> _ IH]; intros b Hb; [done |].
  destruct Hb as [| y b -> Hb]; [done |]. simpl. constructor; [done | by apply IH].
Qed.

(** X9.  On a transaction table with at least one row, Integrity is 100.0
    when every customer_id and every merchant_id occurs in its reference
    column, and 0.0 when either reference column is empty. *)
Theorem integrity_extremes (txn_df cust_df merch_df : DataFrame)
    (tc tm c m : Series) :
  getitem txn_df "customer_id" = Ok tc →
  getitem txn_df "merchant_id" = Ok tm →
  getitem cust_df "customer_id" = Ok c →
  getitem merch_df "merchant_id" = Ok m →
  length tc = length tm → tc ≠ [] →
  (Forall (λ x, cell_in x c = true) tc → Forall (λ y, cell_in y m = true) tm →
     integrity_score txn_df cust_df merch_df = Ok full_score) ∧
  (c = [] ∨ m = [] → integrity_score txn_df cust_df merch_df = Ok zero_score).
Proof.
  intros Htc Htm Hc Hm Hlen Hne. unfold integrity_score, mask_or, mask_not, isin.
  rewrite Htc. cbn [mbind res_bind]. rewrite Hc. cbn [mbind res_bind].
  rewrite Htm. cbn [mbind res_bind]. rewrite Hm. cbn [mbind res_bind]. cbv zeta.
  assert (zip_with orb (negb <$> ((λ x, cell_in x c) <$> tc))
            (negb <$> ((λ x, cell_in x m) <$> tm)) ≠ []) as Hmask.
  { apply zip_with_nonempty; [by do 2 apply fmap_nonempty | by rewrite !length_fmap]. }
  split.
  - intros Hallc Hallm. f_equal. apply mask_score_full; [exact Hmask |].
    apply zip_with_orb_false; apply Forall_fmap, Forall_fmap;
      (eapply list.Forall_impl; [eassumption |]);
      intros x Hx; unfold compose; by rewrite Hx.
  - intros Hempty. f_equal. apply mask_score_zero; [exact Hmask |].
    destruct Hempty as [-> | ->].
    + apply zip_with_orb_true_l, Forall_fmap, Forall_fmap.
      by apply Forall_true.
    + apply zip_with_orb_true_r, Forall_fmap, Forall_fmap.
      by apply Forall_true.
Qed.

Lemma integrity_extremes_witness :
  integrity_score scenario_transactions
    (customers_table [Str "C1"]) (merchants_table [Str "M1"]) = Ok full_score ∧
  integrity_score scenario_transactions
    (customers_table []) (merchants_table [Str "M1"]) = Ok zero_score.
Proof.
  split.
  - destruct (integrity_extremes scenario_transactions
                (customers_table [Str "C1"]) (merchants_table [Str "M1"])
                [Str "C1"] [Str "M1"] [Str "C1"] [Str "M1"]
                eq_refl eq_refl eq_refl eq_refl eq_refl) as [Hfull _];
      [discriminate |].
    apply Hfull; repeat constructor.
  - destruct (integrity_extremes scenario_transactions
                (customers_table []) (merchants_table [Str "M1"])
                [Str "C1"] [Str "M1"] [] [Str "M1"]
                eq_refl eq_refl eq_refl eq_refl eq_refl) as [_ Hzero];
      [discriminate |].
    apply Hzero. by left.
Defined.

(** ** Completeness and the body of Uniqueness *)

Lemma ratio_score_in_range (k n : Z) :
  0 < n → 0 <= k <= n →
  in_range (round2 (fscale 100 (fsub (Fin 1) (Fin (inject_Z k / inject_Z n))))).
Proof.
  intros Hn Hk. destruct (ratio_bounds k n Hn Hk) as [H0 H1].
  simpl fscale. apply round2_in_range; lra.
Qed.

Lemma ratio_score_full (n : Z) :
  round2 (fscale 100 (fsub (Fin 1) (Fin (inject_Z 0 / inject_Z n)))) = full_score.
Proof.
  simpl. unfold full_score. do 2 f_equal.
  rewrite <- (round_half_even_Z 10000). apply round_half_even_comp.
  change (inject_Z 10000) with 10000%Q. change (inject_Z 0) with 0%Q.
  unfold Qdiv. lra.
Qed.

Lemma ratio_score_zero (n : Z) :
  n ≠ 0 →
  round2 (fscale 100 (fsub (Fin 1) (Fin (inject_Z n / inject_Z n)))) = zero_score.
Proof.
  intros Hn. simpl. unfold zero_score. do 2 f_equal.
  rewrite <- (round_half_even_Z 0). apply round_half_even_comp.
  change (inject_Z 0) with 0%Q.
  assert (inject_Z n / inject_Z n == 1)%Q as ->; [| lra].
  apply Qmult_inv_r. intros H. apply Hn. by apply inject_Z_injective.
Qed.

Lemma null_count_bounds (cols : list (string * Series)) (n : nat) :
  Forall (λ col, length col.2 = n) cols →
  0 <= foldr (λ col acc, count_true (is_null <$> col.2) + acc) 0 cols
    <= Z.of_nat n * Z.of_nat (length cols).
Proof.
  induction 1 as [| col cols Hcol _ IH]; [simpl; lia |].
  simpl foldr. simpl length.
  pose proof (count_true_bounds (is_null <$> col.2)) as Hb.
  rewrite length_fmap, Hcol in Hb. lia.
Qed.

Lemma null_count_none (cols : list (string * Series)) :
  Forall (λ col, Forall (λ c, is_null c = false) col.2) cols →
  foldr (λ col acc, count_true (is_null <$> col.2) + acc) 0 cols = 0.
Proof.
  induction 1 as [| col cols Hcol _ IH]; [done |].
  simpl foldr. rewrite IH, count_true_none; [done |].
  by apply Forall_fmap.
Qed.

Lemma null_count_all (cols : list (string * Series)) (n : nat) :
  Forall (λ col, length col.2 = n) cols →
  Forall (λ col, Forall (λ c, is_null c = true) col.2) cols →
  foldr (λ col acc, count_true (is_null <$> col.2) + acc) 0 cols
  = Z.of_nat n * Z.of_nat (length cols).
Proof.
  intros Hlen. induction Hlen as [| col cols Hcol _ IH]; intros Hall; [simpl; lia |].
  apply list.Forall_cons in Hall as [Hnull Hall].
  simpl foldr. simpl length. rewrite (IH Hall), count_true_all.
  - rewrite length_fmap, Hcol. lia.
  - by apply Forall_fmap.
Qed.

(** X10.  On a table with at least one row and one column, Completeness
    returns a finite score between 0 and 100: 100.0 when no cell is null and
    0.0 when every cell is. *)
Theorem completeness_score_range (df : DataFrame) :
  rectangular df → (0 < nrows df)%nat → columns df ≠ [] →
  ∃ s, completeness_score df = Ok s ∧ in_range s ∧
    (Forall (λ col, Forall (λ c, is_null c = false) col.2) (columns df) →
       s = full_score) ∧
    (Forall (λ col, Forall (λ c, is_null c = true) col.2) (columns df) →
       s = zero_score).
Proof.
  intros Hrect Hrows Hcols. unfold completeness_score, shape. cbn [fst snd]. cbv zeta.
  eexists. split; [reflexivity |].
  assert (0 < Z.of_nat (nrows df) * Z.of_nat (length (columns df))) as Htotal.
  { destruct (columns df); [done | simpl length; lia]. }
  unfold np_true_divide.
  destruct (Z.eqb_spec (Z.of_nat (nrows df) * Z.of_nat (length (columns df))) 0)
    as [H0 | _]; [lia |].
  split; [| split].
  - apply ratio_score_in_range; [exact Htotal |].
    apply null_count_bounds, Hrect.
  - intros Hnone. unfold isnull_sum_sum. rewrite (null_count_none _ Hnone).
    apply ratio_score_full.
  - intros Hall. unfold isnull_sum_sum.
    rewrite (null_count_all _ (nrows df) Hrect Hall).
    apply ratio_score_zero. lia.
Qed.

Lemma completeness_score_range_witness :
  ∃ s, completeness_score scenario_transactions = Ok s ∧ in_range s ∧
    (Forall (λ col, Forall (λ c, is_null c = false) col.2)
       (columns scenario_transactions) → s = full_score) ∧
    (Forall (λ col, Forall (λ c, is_null c = true) col.2)
       (columns scenario_transactions) → s = zero_score).
Proof.
  apply (completeness_score_range scenario_transactions).
  - unfold rectangular. simpl. repeat constructor.
  - simpl. lia.
  - discriminate.
Defined.

Lemma distinct_length (cs : list cell) : (length (distinct cs) <= length cs)%nat.
Proof.
  induction cs as [| c cs IH]; [done |]. simpl.
  destruct (cell_in c cs); simpl; lia.
Qed.

Lemma nunique_bounds (col : Series) : 0 <= nunique col <= Z.of_nat (length col).
Proof.
  unfold nunique.
  pose proof (distinct_length (filter (λ c, is_null c = false) col)) as H1.
  pose proof (length_filter (λ c, is_null c = false) col) as H2.
  lia.
Qed.

(** X11.  The body of Uniqueness, reached by a call with the frame alone
    once the module binds [id_column] to one of the table's columns, raises
    [ZeroDivisionError] on a table without rows and otherwise returns a
    finite score between 0 and 100. *)
Theorem uniqueness_body_outcomes (df : DataFrame) (id_column : string) (col : Series) :
  rectangular df → getitem df id_column = Ok col →
  (nrows df = 0%nat →
     uniqueness_score (Some id_column) df [] = Raise ZeroDivisionError) ∧
  ((0 < nrows df)%nat →
     ∃ s, uniqueness_score (Some id_column) df [] = Ok s ∧ in_range s).
Proof.
  intros Hrect Hcol. unfold uniqueness_score. rewrite Hcol. cbn [mbind res_bind].
  unfold py_true_divide, len. split; intros Hn.
  - by rewrite Hn.
  - destruct (Z.eqb_spec (Z.of_nat (nrows df)) 0) as [H0 | _]; [lia |].
    cbn [mbind res_bind]. eexists. split; [reflexivity |].
    pose proof (nunique_bounds col) as Hk.
    rewrite (getitem_length df id_column col Hrect Hcol) in Hk.
    destruct (ratio_bounds (nunique col) (Z.of_nat (nrows df))) as [H0 H1];
      [lia | exact Hk |].
    simpl fscale. apply round2_in_range; lra.
Qed.

Lemma uniqueness_body_outcomes_witness :
  uniqueness_score (Some "transaction_id") empty_transactions []
    = Raise ZeroDivisionError ∧
  ∃ s, uniqueness_score (Some "transaction_id") (ids_only [Num 1; Num 1; Null]) []
         = Ok s ∧ in_range s.
Proof.
  split.
  - apply (uniqueness_body_outcomes empty_transactions "transaction_id" []);
      [unfold rectangular; simpl; repeat constructor | reflexivity | reflexivity].
  - apply (uniqueness_body_outcomes (ids_only [Num 1; Num 1; Null])
             "transaction_id" [Num 1; Num 1; Null]);
      [unfold rectangular; simpl; repeat constructor | reflexivity | simpl; lia].
Defined.

(** ** Timeliness: conversion in place *)

Lemma assign_col_same (name : string) (s : Series) (cols : list (string * Series)) :
  lookup_col name cols = Some s → assign_col name s cols = cols.
Proof.
  induction cols as [| [n old] cols IH]; [done |]. simpl.
  case_bool_decide as Hn.
  - by intros [= ->].
  - intros H. by rewrite IH.
Qed.

Lemma setitem_same (df : DataFrame) (name : string) (s : Series) :
  getitem df name = Ok s → setitem df name s = df.
Proof.
  intros H. apply getitem_lookup_col in H. unfold setitem.
  rewrite (assign_col_same name s _ H). by destruct df.
Qed.

Section Conversion.
Variable parse_scalar : datetime_parser.

Lemma to_datetime_cell_idem (column column' : Series) (c d : cell) :
  to_datetime_cell parse_scalar column c = Ok d →
  to_datetime_cell parse_scalar column' d = Ok d.
Proof.
  destruct c; simpl; try (by intros [= <-]);
    destruct (parse_scalar _ _) as [[t |] |]; try discriminate; by intros [= <-].
Qed.

Lemma to_datetime_cells_idem (column column' s k : Series) :
  mapM (to_datetime_cell parse_scalar column) s = Ok k →
  mapM (to_datetime_cell parse_scalar column') k = Ok k.
Proof.
  revert k. induction s as [| c s IH]; intros k.
  - by intros [= <-].
  - rewrite mapM_res_cons.
    destruct (to_datetime_cell parse_scalar column c) as [d |] eqn:Hc; [| discriminate].
    destruct (mapM (to_datetime_cell parse_scalar column) s) as [k' |]; [| discriminate].
    intros [= <-].
    rewrite mapM_res_cons, (to_datetime_cell_idem column column' c d Hc).
    by rewrite (IH k' eq_refl).
Qed.

Lemma to_datetime_idem (s k : Series) :
  to_datetime parse_scalar s = Ok k → to_datetime parse_scalar k = Ok k.
Proof. apply to_datetime_cells_idem. Qed.

(** What a run that returns a score has done. *)
Lemma timeliness_score_ok_inv (df df' : DataFrame) (d : Z) (s : pyfloat) :
  timeliness_score parse_scalar df d = (Ok s, df') →
  ∃ raw_ts raw_sd ts sd,
    getitem df "transaction_timestamp" = Ok raw_ts ∧
    getitem df "settlement_date" = Ok raw_sd ∧
    to_datetime parse_scalar raw_ts = Ok ts ∧
    to_datetime parse_scalar raw_sd = Ok sd ∧
    s = round2 (fscale 100 (fsub (Fin 1) (mean (late_mask d sd ts)))) ∧
    df' = setitem (setitem df "transaction_timestamp" ts) "settlement_date" sd.
Proof.
  intros Hrun.
  destruct (getitem df "transaction_timestamp") as [raw_ts |] eqn:Hts;
    [| unfold timeliness_score in Hrun; rewrite Hts in Hrun; discriminate Hrun].
  destruct (to_datetime parse_scalar raw_ts) as [ts |] eqn:Hpts;
    [| unfold timeliness_score in Hrun; rewrite Hts in Hrun;
       cbn [mbind res_bind] in Hrun; rewrite Hpts in Hrun; discriminate Hrun].
  destruct (getitem df "settlement_date") as [raw_sd |] eqn:Hsd;
    [| unfold timeliness_score in Hrun; rewrite Hts in Hrun;
       cbn [mbind res_bind] in Hrun; rewrite Hpts in Hrun;
       rewrite getitem_setitem_ne, Hsd in Hrun by done; discriminate Hrun].
  destruct (to_datetime parse_scalar raw_sd) as [sd |] eqn:Hpsd;
    [| unfold timeliness_score in Hrun; rewrite Hts in Hrun;
       cbn [mbind res_bind] in Hrun; rewrite Hpts in Hrun;
       rewrite getitem_setitem_ne, Hsd in Hrun by done;
       cbn [mbind res_bind] in Hrun; rewrite Hpsd in Hrun; discriminate Hrun].
  rewrite (timeliness_score_run parse_scalar df d raw_ts raw_sd ts sd
             Hts Hsd Hpts Hpsd) in Hrun.
  exists raw_ts, raw_sd, ts, sd. by simplify_eq.
Qed.

(** X12.  The conversion is idempotent: after a call that returned a score,
    a second call on the frame as the first left it returns the same score
    and leaves the frame as it is. *)
Theorem timeliness_score_idempotent (df df' : DataFrame) (d : Z) (s : pyfloat) :
  timeliness_score parse_scalar df d = (Ok s, df') →
  timeliness_score parse_scalar df' d = (Ok s, df').
Proof.
  intros Hrun.
  destruct (timeliness_score_ok_inv df df' d s Hrun)
    as (raw_ts & raw_sd & ts & sd & Hts & Hsd & Hpts & Hpsd & -> & ->).
  assert (getitem (setitem (setitem df "transaction_timestamp" ts)
                     "settlement_date" sd) "transaction_timestamp" = Ok ts) as Hts'.
  { by rewrite getitem_setitem_ne, getitem_setitem_eq. }
  assert (getitem (setitem (setitem df "transaction_timestamp" ts)
                     "settlement_date" sd) "settlement_date" = Ok sd) as Hsd'.
  { by rewrite getitem_setitem_eq. }
  rewrite (timeliness_score_run parse_scalar _ d ts sd ts sd Hts' Hsd'
             (to_datetime_idem _ _ Hpts) (to_datetime_idem _ _ Hpsd)).
  by rewrite (setitem_same _ _ _ Hts'), (setitem_same _ _ _ Hsd').
Qed.

(** X13.  A call that fails on the settlement dates has already converted
    the timestamps: when the transaction_timestamp column converts and the
    settlement_date column is missing or holds a value that
    [pd.to_datetime] cannot parse in that column (a value that converts to
    NaT is not one), the call raises and leaves the frame with its
    transaction_timestamp column replaced. *)
Theorem timeliness_failure_leaves_timestamps_converted (df : DataFrame) (d : Z)
    (raw_ts ts : Series) :
  getitem df "transaction_timestamp" = Ok raw_ts →
  to_datetime parse_scalar raw_ts = Ok ts →
  ("settlement_date" ∉ (columns df).*1 →
     timeliness_score parse_scalar df d
     = (Raise KeyError, setitem df "transaction_timestamp" ts)) ∧
  (∀ raw_sd c, getitem df "settlement_date" = Ok raw_sd →
     c ∈ raw_sd → unparseable parse_scalar raw_sd c →
     timeliness_score parse_scalar df d
     = (Raise ValueError, setitem df "transaction_timestamp" ts)).
Proof.
  intros Hts Hpts. unfold timeliness_score.
  rewrite Hts. cbn [mbind res_bind]. rewrite Hpts.
  rewrite getitem_setitem_ne by done. split.
  - intros Habsent. by rewrite (getitem_absent df _ Habsent).
  - intros raw_sd c Hsd Hc Hbad. rewrite Hsd. cbn [mbind res_bind].
    by rewrite (to_datetime_unparseable parse_scalar raw_sd c Hc Hbad).
Qed.

Lemma count_true_fmap_mono {A} (f g : A → bool) (l : list A) :
  (∀ x, f x = true → g x = true) →
  count_true (f <$> l) <= count_true (g <$> l).
Proof.
  intros Hfg. induction l as [| x l IH]; [done |].
  rewrite !fmap_cons, !count_true_cons.
  specialize (Hfg x).
  destruct (f x), (g x); first [lia | by specialize (Hfg eq_refl)].
Qed.

Lemma gt_days_mono (d d' : Z) (x : option Z) :
  d <= d' → gt_days d' x = true → gt_days d x = true.
Proof.
  intros Hd. destruct x as [n |]; simpl; [| done].
  rewrite !Z.ltb_lt. lia.
Qed.

(** X14.  Whatever Timeliness returns is NaN or a finite score between 0
    and 100, and a larger [max_delay_days] never lowers it: on one table, a
    call with threshold [d'] returns whenever the call with [d <= d'] does,
    and its score is at least as high. *)
Theorem timeliness_monotone_in_threshold (df df1 : DataFrame) (d d' : Z) (s : pyfloat) :
  d <= d' →
  timeliness_score parse_scalar df d = (Ok s, df1) →
  (s = NaN ∨ in_range s) ∧
  ∃ s', timeliness_score parse_scalar df d' = (Ok s', df1) ∧
        ((s = NaN ∧ s' = NaN) ∨ fle s s').
Proof.
  intros Hd Hrun.
  destruct (timeliness_score_ok_inv df df1 d s Hrun)
    as (raw_ts & raw_sd & ts & sd & Hts & Hsd & Hpts & Hpsd & -> & ->).
  split; [apply mask_score_nan_or_range |].
  rewrite (timeliness_score_run parse_scalar df d' raw_ts raw_sd ts sd
             Hts Hsd Hpts Hpsd).
  eexists. split; [reflexivity |].
  unfold late_mask.
  set (delay := dt_days <$> zip_with sub_instants sd ts).
  destruct (decide (delay = [])) as [-> | Hdelay]; [by left | right].
  rewrite (mean_nonempty _ (fmap_nonempty (gt_days d) delay Hdelay)),
          (mean_nonempty _ (fmap_nonempty (gt_days d') delay Hdelay)),
          !length_fmap.
  apply score_mono_in_count.
  - destruct delay; [done | simpl; lia].
  - apply count_true_fmap_mono. intros y. by apply gt_days_mono.
Qed.

End Conversion.

Lemma timeliness_score_idempotent_witness :
  timeliness_score iso_scalar
    (timeliness_score iso_scalar scenario_transactions max_delay_days_default).2
    max_delay_days_default
  = (Ok full_score,
     (timeliness_score iso_scalar scenario_transactions max_delay_days_default).2).
Proof.
  apply (timeliness_score_idempotent iso_scalar scenario_transactions).
  reflexivity.
Defined.

Lemma timeliness_failure_leaves_timestamps_converted_witness :
  timeliness_score iso_scalar
    (one_transaction (Str "INR") (Str "2024-01-01") (Str "not a date"))
    max_delay_days_default
  = (Raise ValueError,
     setitem (one_transaction (Str "INR") (Str "2024-01-01") (Str "not a date"))
       "transaction_timestamp" [Instant (19723 * ns_per_day)]).
Proof.
  destruct (timeliness_failure_leaves_timestamps_converted iso_scalar
              (one_transaction (Str "INR") (Str "2024-01-01") (Str "not a date"))
              max_delay_days_default [Str "2024-01-01"]
              [Instant (19723 * ns_per_day)] eq_refl eq_refl) as [_ Hbad].
  apply (Hbad [Str "not a date"] (Str "not a date") eq_refl).
  - apply list_elem_of_here.
  - reflexivity.
Defined.

Lemma timeliness_monotone_in_threshold_witness :
  (zero_score = NaN ∨ in_range zero_score) ∧
  ∃ s', timeliness_score iso_scalar
          (one_transaction (Str "INR") (Str "2024-01-01") (Str "2024-01-10")) 10
        = (Ok s',
           (timeliness_score iso_scalar
              (one_transaction (Str "INR") (Str "2024-01-01") (Str "2024-01-10"))
              max_delay_days_default).2) ∧
        ((zero_score = NaN ∧ s' = NaN) ∨ fle zero_score s').
Proof.
  apply (timeliness_monotone_in_threshold iso_scalar
           (one_transaction (Str "INR") (Str "2024-01-01") (Str "2024-01-10"))
           _ max_delay_days_default 10 zero_score).
  - unfold max_delay_days_default. lia.
  - reflexivity.
Defined.

(** ** The two thresholds of the explanation layer *)

(** X15.  Between 85 and 90 the two resolvers disagree: a score of at least
    85 and below 90 is explained with the medium-severity sentence of its
    dimension while the recommendation is the no-action sentence. *)
Theorem medium_severity_without_action (q : Q) :
  (85 <= q)%Q → (q < 90)%Q →
  severity_of (Fin q) = "medium" ∧
  ∀ d, d ∈ dimensions →
    generate_recommendation d (Fin q) = Ok no_action ∧
    ∃ by_severity text,
      (d, by_severity) ∈ explanation_table ∧ ("medium", text) ∈ by_severity ∧
      explain_dimension d (Fin q) = Ok text.
Proof.
  intros H85 H90.
  assert (severity_of (Fin q) = "medium") as Hsev.
  { unfold severity_of. rewrite (proj2 (fge_Fin_false q 90) H90).
    assert (75 <= q)%Q as H75 by lra. by rewrite (proj2 (fge_Fin q 75) H75). }
  split; [exact Hsev |]. intros d Hd. split.
  - unfold generate_recommendation. by rewrite (proj2 (fge_Fin q 85) H85).
  - unfold explain_dimension. rewrite Hsev.
    each_dimension Hd;
      do 2 eexists; (split; [find_entry | split; [find_entry | vm_compute; reflexivity]]).
Qed.

Lemma medium_severity_without_action_witness :
  severity_of (Fin 87) = "medium" ∧
  generate_recommendation "Uniqueness" (Fin 87) = Ok no_action.
Proof.
  destruct (medium_severity_without_action 87) as [Hsev Hrec];
    [discriminate | reflexivity |].
  split; [exact Hsev |].
  apply (Hrec "Uniqueness").
  unfold dimensions. do 3 apply list_elem_of_further. apply list_elem_of_here.
Defined.

(** X16.  On the seven dimensions neither resolver raises, whatever the
    score, NaN and the infinities included; a NaN score, which compares
    false with every threshold, is explained with the high-severity sentence
    and gets the dimension's remediation sentence. *)
Theorem resolvers_total_on_dimensions (d : string) :
  d ∈ dimensions →
  (∀ score, returns (explain_dimension d score) ∧
            returns (generate_recommendation d score)) ∧
  severity_of NaN = "high" ∧
  ∃ by_severity text sentence,
    (d, by_severity) ∈ explanation_table ∧ ("high", text) ∈ by_severity ∧
    explain_dimension d NaN = Ok text ∧
    (d, sentence) ∈ recommendation_table ∧
    generate_recommendation d NaN = Ok sentence.
Proof.
  intros Hd. split; [| split; [reflexivity |]].
  - intros score. split.
    + unfold explain_dimension.
      each_dimension Hd;
        destruct (severity_of_cases score) as [-> | [-> | ->]];
        eexists; vm_compute; reflexivity.
    + unfold generate_recommendation.
      destruct (fge score (Fin 85)); [by eexists |].
      each_dimension Hd; eexists; vm_compute; reflexivity.
  - each_dimension Hd;
      do 3 eexists;
      (split; [find_entry | split; [find_entry | split; [vm_compute; reflexivity |
        split; [find_entry | vm_compute; reflexivity]]]]).
Qed.

Lemma resolvers_total_on_dimensions_witness :
  returns (explain_dimension "Integrity" PInf) ∧
  returns (generate_recommendation "Integrity" PInf).
Proof.
  destruct (resolvers_total_on_dimensions "Integrity") as [Htotal _].
  - unfold dimensions. do 6 apply list_elem_of_further. apply list_elem_of_here.
  - apply Htotal.
Defined.

(** ** The order of failures in the pipeline *)

(** X17.  A run of the pipeline raises the exception of the first metric
    that fails, in the order Accuracy, Validity, Uniqueness, and leaves
    every frame as it was: Accuracy's exception when Accuracy raises,
    otherwise Validity's when Validity raises, otherwise the [TypeError] of
    the call of Uniqueness.  Completeness, evaluated first, never raises. *)
Theorem analyze_dataset_first_failure (parse_scalar : datetime_parser)
    (module_id_column : option string) (txn_df cust_df merch_df : loc) (σ : heap) :
  returns (completeness_score (σ txn_df)) ∧
  analyze_dataset parse_scalar module_id_column txn_df cust_df merch_df σ
  = (Raise match accuracy_score_amount (σ txn_df) with
           | Raise e => e
           | Ok _ =>
               match validity_score_currency (σ txn_df) with
               | Raise e => e
               | Ok _ => TypeError
               end
           end, σ).
Proof.
  split; [by eexists |]. unfold analyze_dataset.
  rewrite (M_bind_ok _ _ σ σ _ (reading_run completeness_score txn_df σ)).
  destruct (accuracy_score_amount (σ txn_df)) as [a | e] eqn:Ha;
    [erewrite M_bind_ok by (rewrite reading_run, Ha; reflexivity)
    | apply M_bind_raise; rewrite reading_run, Ha; reflexivity].
  destruct (validity_score_currency (σ txn_df)) as [v | e] eqn:Hv;
    [erewrite M_bind_ok by (rewrite reading_run, Hv; reflexivity)
    | apply M_bind_raise; rewrite reading_run, Hv; reflexivity].
  apply M_bind_raise. reflexivity.
Qed.

(** An empty settlement date converts to NaT: the call returns, with both
    columns converted and the row on time. *)
Example timeliness_blank_settlement :
  timeliness_score iso_scalar
    (one_transaction (Str "INR") (Str "2024-01-01") (Str "")) max_delay_days_default
  = (Ok full_score,
     one_transaction (Str "INR") (Instant (19723 * ns_per_day)) Null).
Proof. reflexivity. Qed.
